(** * pollerBILL.c : discovery-and-polling engine of the NGA field-bus master

    A shallow embedding of [src/reference/pollerBILL.c].  The program forks
    into two processes that share four anonymous mappings ([Resp], [End],
    [Nga], [NewClient]):

    - [filter] (capture process): classifies every frame read from the SLIP
      interface and publishes device announces into the mailbox [NewClient];
    - [poll] (poll process): drains the mailbox into the [Clients] table,
      broadcasts the topology message and polls every known client, waiting
      on the shared flags with a bounded busy-wait.

    Bytes ([unsigned char], and the raw bytes of [char] buffers) are modelled
    as [Z] holding a value in 0..255; C arrays are lists indexed with stdpp's
    lookup and updated in place with its insert. *)

From Stdlib Require Import ZArith Lia Bool.
From stdpp Require Import base tactics option list.

Local Open Scope Z_scope.

(** ** Constants of the source *)

Definition TOPOLOGY_SECS : Z := 4.          (* line 32 *)
Definition IDLE_POLL : Z := 150.            (* line 34 *)
Definition MAX_RESPONSE_TIME : Z := 600.    (* line 36 *)
Definition MAX_CLIENTS : nat := 64.         (* line 39 *)
Definition OUR_MQTT_PORT : Z := 1883.       (* line 42 *)
Definition BROADCAST_PORT : Z := 30000.     (* line 504 *)
(* <linux/if_packet.h> *)
Definition PACKET_OUTGOING : Z := 4.

(** ** Byte arrays *)

(** [a[i]] for an array held as a list.  Every array of the program has a
    fixed size and every index used by the source is a constant or a loop
    counter below that size; the default is never read on arrays of the
    declared sizes. *)
Definition byte_at (a : list Z) (i : nat) : Z := default 0 (a !! i).

(** [memcpy(&dst[doff], &src[soff], n)], byte by byte. *)
Fixpoint memcpy (dst : list Z) (doff : nat) (src : list Z) (soff : nat)
    (n : nat) : list Z :=
  match n with
  | O => dst
  | S n' => memcpy (<[doff := byte_at src soff]> dst) (S doff) src (S soff) n'
  end.

(** ** Shared coordination state (lines 87-90, 197-211) *)

Record shared : Type := mkShared {
  Resp : Z;               (* int *Resp : response started *)
  End_ : Z;               (* int *End  : frame ended *)
  Nga : Z;                (* int *Nga  : poll armed *)
  NewClient : list Z      (* unsigned char NewClient[21] : discovery mailbox *)
}.

Definition set_Resp (v : Z) (s : shared) : shared :=
  mkShared v (End_ s) (Nga s) (NewClient s).
Definition set_End (v : Z) (s : shared) : shared :=
  mkShared (Resp s) v (Nga s) (NewClient s).
Definition set_Nga (v : Z) (s : shared) : shared :=
  mkShared (Resp s) (End_ s) v (NewClient s).
Definition set_NewClient (m : list Z) (s : shared) : shared :=
  mkShared (Resp s) (End_ s) (Nga s) m.

(** The cells as [main] leaves them before the fork: the three flags and
    [NewClient[0]] are written 0, the rest of the anonymous mapping is zero
    filled by the kernel. *)
Definition main_shared : shared := mkShared 0 0 0 (replicate 21 0).

(** ** Capture process: one iteration of the receive loop (lines 337-382) *)

Inductive filter_log : Type :=
  | LogOut                         (* printf("OUT:\n") *)
  | LogRx                          (* printf("Slip packet Rx %d bytes\n", ..) *)
  | LogAnnounce (a b : Z).         (* printf("\nAnnounce from %d.%d\n", ..) *)

(** State of the capture process: the shared cells and its own copy of the
    global [IdleTime]. *)
Record world : Type := mkWorld {
  wsh : shared;
  IdleTime : Z
}.

(** Lines 353-377: the announce check, run on every frame with [n > 0]. *)
Definition announce_check (n : Z) (buffer : list Z) (s : shared)
    : shared * list filter_log :=
  if n =? 60 then
    if byte_at buffer 28 =? 0x55 then
      if byte_at (NewClient s) 0 =? 0 then
        let m1 := <[1%nat := byte_at buffer 30]> (NewClient s) in
        let m2 := <[2%nat := byte_at buffer 29]> m1 in
        let m3 := <[0%nat := 1]> m2 in
        let m4 := memcpy m3 3 buffer 32 18 in
        (set_NewClient m4 s,
         [LogAnnounce (byte_at buffer 30) (byte_at buffer 29)])
      else (s, [])
    else (s, [])
  else (s, []).

(** Lines 337-382.  [n] is the value returned by [recvfrom], [pkttype] is
    [addr.sll_pkttype] and [buffer] the receive buffer after the call. *)
Definition filter_iteration (n pkttype : Z) (buffer : list Z) (w : world)
    : world * list filter_log :=
  if 0 <? n then
    let '(s1, idle1, log1) :=
      if pkttype =? PACKET_OUTGOING then (wsh w, IdleTime w, [LogOut])
      else (set_End 1 (wsh w), 0, [LogRx]) in
    let '(s2, log2) := announce_check n buffer s1 in
    (mkWorld s2 idle1, log1 ++ log2)
  else
    (mkWorld (wsh w) (IdleTime w + 1), []).

(** ** Frame-boundary notifier (lines 476-489) *)

Definition sig_event_handler (n si_int : Z) (s : shared) : shared :=
  if (n =? 44) && (Nga s =? 1) then
    if si_int =? 0 then set_Resp 1 s else set_End 1 s
  else s.

(** Lines 524-528: [poll] fills in [act] but the call
    [sigaction(44, &act, NULL)] is commented out, so the handler is not
    installed. *)
Definition handler_installed : bool := false.

(** ** Environment of the poll process *)

(** What can happen to the shared cells between two accesses by the poll
    process: the capture process completes one iteration of its loop, or a
    signal is delivered. *)
Inductive env_event : Type :=
  | Recv (n pkttype : Z) (buffer : list Z)
  | Signal (signo si_int : Z).

(** [inst] tells whether [sig_event_handler] is installed; without it a
    delivered signal does not touch the shared cells.  [env_step] is what
    an event does to the shared cells and to [IdleTime], and no more: the
    default action of a signal that finds no handler (for the real-time
    signal 44 it ends the process that receives it) is not a step of it;
    see [handled] below. *)
Definition env_step (inst : bool) (w : world) (e : env_event) : world :=
  match e with
  | Recv n pkttype buffer => fst (filter_iteration n pkttype buffer w)
  | Signal signo si_int =>
      if inst then mkWorld (sig_event_handler signo si_int (wsh w)) (IdleTime w)
      else w
  end.

Definition env_run (inst : bool) (evs : list env_event) (w : world) : world :=
  foldl (env_step inst) w evs.

(** The events the poll process lives through: what the capture process
    does, and a signal 44 that finds [sig_event_handler] installed.  [poll]
    registers with the driver for signal 44 (line 533) and installs a
    handler for no other signal; a signal without handler is left to its
    default action, which for signal 44 terminates the process.  What the
    poll process does after an event is stated for handled events only. *)
Definition handled (inst : bool) (e : env_event) : Prop :=
  match e with
  | Recv _ _ _ => True
  | Signal signo _ => inst = true ∧ signo = 44
  end.

(** ** Device table (lines 491-499) *)

Record ClientIP_st : Type := mkClient {
  used : Z;
  next_to_last : Z;
  last : Z;
  sn : list Z              (* unsigned char sn[18] *)
}.

(** The zero-initialised global [Clients[MAX_CLIENTS]]. *)
Definition Clients_init : list ClientIP_st :=
  replicate MAX_CLIENTS (mkClient 0 0 0 (replicate 18 0)).

(** ** Poll process, phase 1: discovery drain (lines 561-593) *)

(** Lines 563-573: the lookup loop; the result is [existing]. *)
Fixpoint find_existing (cl : list ClientIP_st) (nc : list Z) : Z :=
  match cl with
  | [] => 0
  | c :: cl' =>
      if negb (used c =? 0)
         && (next_to_last c =? byte_at nc 1) && (last c =? byte_at nc 2)
      then 1
      else find_existing cl' nc
  end.

(** Lines 576-588: the first free slot takes the new client and
    [DeviceCount] (an [unsigned char]) is incremented; a full table is left
    as it is. *)
Fixpoint insert_client (cl : list ClientIP_st) (nc : list Z) (DeviceCount : Z)
    : list ClientIP_st * Z :=
  match cl with
  | [] => ([], DeviceCount)
  | c :: cl' =>
      if used c =? 0 then
        (mkClient 1 (byte_at nc 1) (byte_at nc 2) (memcpy (sn c) 0 nc 3 18)
           :: cl',
         (DeviceCount + 1) mod 256)
      else
        let '(cl'', dc) := insert_client cl' nc DeviceCount in
        (c :: cl'', dc)
  end.

(** Lines 561-593, on the mailbox contents [nc]: the new table, the new
    [DeviceCount] and the new mailbox. *)
Definition discovery_drain (nc : list Z) (cl : list ClientIP_st)
    (DeviceCount : Z) : list ClientIP_st * Z * list Z :=
  if negb (byte_at nc 0 =? 0) then
    let '(cl', dc') :=
      if find_existing cl nc =? 0 then insert_client cl nc DeviceCount
      else (cl, DeviceCount) in
    (cl', dc', <[0%nat := 0]> nc)
  else (cl, DeviceCount, nc).

(** ** Topology message (lines 52-81) *)

Record Topology_Msg_st : Type := mkTopoMsg {
  secs_lsbyte : Z; secs_3rd : Z; secs_2nd : Z; secs_msbyte : Z;
  nano_lsbyte : Z; nano_3rd : Z; nano_2nd : Z; nano_msbyte : Z;
  mqtt_port_lsb : Z; mqtt_port_msb : Z;
  device_count : Z;
  core_version : Z
}.

Record Topology_Dev_st : Type := mkTopoDev {
  ip_lsb : Z;
  ip_msb : Z;
  duplicate_flag : Z;
  serial_number : list Z;   (* unsigned char serial_number[18] *)
  reserved1 : Z
}.

(** The transmit buffer [topo]: one header followed by [MAX_CLIENTS] device
    areas (line 550).  [dev = &topo->core_version + 1] is index 0 of
    [tdevs] and [dev++] the next index. *)
Record topo_buf : Type := mkTopoBuf {
  thdr : Topology_Msg_st;
  tdevs : list Topology_Dev_st
}.

(** [calloc]: every byte is zero. *)
Definition topo_init : topo_buf :=
  mkTopoBuf (mkTopoMsg 0 0 0 0 0 0 0 0 0 0 0 0)
            (replicate MAX_CLIENTS (mkTopoDev 0 0 0 (replicate 18 0) 0)).

(** Both structures hold [unsigned char] members only, so they are laid out
    without padding: 12 and 22 bytes. *)
Definition sizeof_Topology_Msg_st : Z := 12.
Definition sizeof_Topology_Dev_st : Z := 22.

Definition bytes_of_msg (h : Topology_Msg_st) : list Z :=
  [secs_lsbyte h; secs_3rd h; secs_2nd h; secs_msbyte h;
   nano_lsbyte h; nano_3rd h; nano_2nd h; nano_msbyte h;
   mqtt_port_lsb h; mqtt_port_msb h; device_count h; core_version h].

Definition bytes_of_dev (d : Topology_Dev_st) : list Z :=
  [ip_lsb d; ip_msb d; duplicate_flag d] ++ serial_number d ++ [reserved1 d].

(** The memory at [topo], as bytes. *)
Definition bytes_of_topo (t : topo_buf) : list Z :=
  bytes_of_msg (thdr t) ++ concat (bytes_of_dev <$> tdevs t).

(** ** Poll process, phase 2: topology broadcast (lines 600-649) *)

(** Lines 634-637: the members written through [dev] for one client;
    [reserved1] is not written. *)
Definition fill_device (c : ClientIP_st) (d : Topology_Dev_st)
    : Topology_Dev_st :=
  mkTopoDev (last c) (next_to_last c) 0
            (memcpy (serial_number d) 0 (sn c) 0 18) (reserved1 d).

(** Lines 626-642: the loop over [Clients]; [dev] is the index of the next
    device area, the result is the device areas, [xmit_len] and [used]. *)
Fixpoint fill_devices (cl : list ClientIP_st) (dev : nat) (xmit_len used_n : Z)
    (devs : list Topology_Dev_st) : list Topology_Dev_st * Z * Z :=
  match cl with
  | [] => (devs, xmit_len, used_n)
  | c :: cl' =>
      if negb (used c =? 0) then
        fill_devices cl' (S dev) (xmit_len + sizeof_Topology_Dev_st)
                     (used_n + 1) (alter (fill_device c) dev devs)
      else fill_devices cl' dev xmit_len used_n devs
  end.

(** Lines 605-624: the header members, from [DeviceCount] and the
    [struct timeval] read by [gettimeofday]; [m] is an [unsigned int]. *)
Definition fill_header (DeviceCount tv_sec tv_usec : Z) : Topology_Msg_st :=
  let m := (tv_usec * 1000) mod 2 ^ 32 in
  mkTopoMsg
    (Z.land tv_sec 0x00ff)
    (Z.land (Z.shiftr tv_sec 8) 0x00ff)
    (Z.land (Z.shiftr tv_sec 16) 0x00ff)
    (Z.land (Z.shiftr tv_sec 24) 0x00ff)
    (Z.land m 0x00ff)
    (Z.land (Z.shiftr m 8) 0x00ff)
    (Z.land (Z.shiftr m 16) 0x00ff)
    (Z.land (Z.shiftr m 24) 0x00ff)
    (Z.land OUR_MQTT_PORT 0x00ff)
    (Z.land (Z.shiftr OUR_MQTT_PORT 8) 0x00ff)
    DeviceCount
    1.

(** Lines 600-643: the buffer after the build, and the datagram handed to
    [sendto]: the first [xmit_len] bytes at [topo]. *)
Definition build_topology (cl : list ClientIP_st) (DeviceCount : Z)
    (tv_sec tv_usec : Z) (t : topo_buf) : topo_buf * list Z * Z :=
  let xmit_len := sizeof_Topology_Msg_st in
  let hdr := fill_header DeviceCount tv_sec tv_usec in
  let '(devs, xmit_len', used_n) := fill_devices cl 0 xmit_len 0 (tdevs t) in
  let t' := mkTopoBuf hdr devs in
  (t', take (Z.to_nat xmit_len') (bytes_of_topo t'), used_n).

(** ** Poll process: state and primitive accesses *)

Record sockaddr_in : Type := mkSockaddr {
  sin_port : Z;
  sin_addr : Z * Z * Z * Z
}.

(** Lines 543-546: the one destination address of the process, set once. *)
Definition s : sockaddr_in := mkSockaddr BROADCAST_PORT (169, 254, 255, 255).

(** What the poll process does to the outside, in program order. *)
Inductive io_event : Type :=
  | Sendto (dst : sockaddr_in) (payload : list Z)
  | Tcdrain
  | Tcflush
  | Msleep (msec : Z)
  | PrintX.                       (* printf("X") of line 680 *)

(** The poll process runs against a schedule: one batch of environment
    events for each of its accesses to the shared cells, consumed in order
    (an exhausted schedule means that nothing more happens). *)
Record pstate : Type := mkP {
  pw : world;
  psched : list (list env_event);
  plog : list io_event
}.

Inductive wait_exit : Type :=
  | ExitBudget (resp_seen : Z)    (* the loop condition of line 672 failed *)
  | ExitBreak.                    (* the break of line 677 *)

Section Poll.

(** Whether [sig_event_handler] is installed for signal 44. *)
Variable inst : bool.

(** The environment moves before an access to the shared cells. *)
Definition sync (st : pstate) : pstate :=
  match psched st with
  | [] => st
  | evs :: rest => mkP (env_run inst evs (pw st)) rest (plog st)
  end.

Definition upd_shared (f : shared -> shared) (st : pstate) : pstate :=
  let st1 := sync st in
  mkP (mkWorld (f (wsh (pw st1))) (IdleTime (pw st1))) (psched st1) (plog st1).

Definition emit (e : io_event) (st : pstate) : pstate :=
  mkP (pw st) (psched st) (plog st ++ [e]).

(** ** Poll process, phase 3: one device poll (lines 658-680) *)

(** Lines 671-678.  One unit of [fuel] is one evaluation of the loop
    condition; [idle] never passes [MAX_RESPONSE_TIME], so 601 units are
    enough from [idle = 0]. *)
Fixpoint poll_wait (fuel : nat) (st : pstate) (idle : Z)
    : option (pstate * Z * wait_exit) :=
  match fuel with
  | O => None
  | S fuel' =>
      let st1 := sync st in
      let r := Resp (wsh (pw st1)) in
      if (if r =? 0 then idle <? IDLE_POLL else idle <? MAX_RESPONSE_TIME)
      then
        let st2 := emit (Msleep 1) st1 in
        let idle' := idle + 1 in
        let st3 := sync st2 in
        if negb (End_ (wsh (pw st3)) =? 0) then
          let st4 := sync st3 in
          if negb (Resp (wsh (pw st4)) =? 0) then Some (st4, idle', ExitBreak)
          else poll_wait fuel' st4 idle'
        else poll_wait fuel' st3 idle'
      else Some (st1, idle, ExitBudget r)
  end.

Definition wait_fuel : nat := 601.

(** Lines 658-680 for the client [c]; [mess] holds the raw bytes written at
    lines 658-661, of which [sendto] takes 4.  The result carries the final
    [idle] and the way the wait ended. *)
Definition poll_device (c : ClientIP_st) (st : pstate)
    : option (pstate * (Z * wait_exit)) :=
  let mess := [169; 254; next_to_last c; last c] in
  let st := upd_shared (set_Resp 0) st in
  let st := upd_shared (set_End 0) st in
  let st := upd_shared (set_Nga 1) st in
  let st := emit (Sendto s (take 4 mess)) st in
  let st := emit Tcdrain st in
  let st := emit Tcflush st in
  match poll_wait wait_fuel st 0 with
  | None => None
  | Some (st, idle, why) =>
      let st := sync st in
      let st := if Resp (wsh (pw st)) =? 1 then emit PrintX st else st in
      Some (st, (idle, why))
  end.

(** Lines 654-682: the loop over the table. *)
Fixpoint poll_clients (cl : list ClientIP_st) (st : pstate)
    : option (pstate * list (Z * wait_exit)) :=
  match cl with
  | [] => Some (st, [])
  | c :: cl' =>
      if negb (used c =? 0) then
        match poll_device c st with
        | None => None
        | Some (st1, o) =>
            match poll_clients cl' st1 with
            | None => None
            | Some (st2, os) => Some (st2, o :: os)
            end
        end
      else poll_clients cl' st
  end.

(** Lines 654-684: the loop, then [*Nga = 0]. *)
Definition poll_round (cl : list ClientIP_st) (st : pstate)
    : option (pstate * list (Z * wait_exit)) :=
  match poll_clients cl st with
  | None => None
  | Some (st1, os) => Some (upd_shared (set_Nga 0) st1, os)
  end.

(** ** Poll process: one iteration of the main loop (lines 552-689) *)

Record plocals : Type := mkLocals {
  Clients : list ClientIP_st;
  DeviceCount : Z;
  last_topology : Z;
  topo : topo_buf
}.

(** The locals when the loop is entered (lines 499, 514, 517, 550). *)
Definition poll_locals_init : plocals := mkLocals Clients_init 0 0 topo_init.

(** What one iteration reads from the clock: [time(0)] and the
    [struct timeval] of [gettimeofday]. *)
Record clock : Type := mkClock { now : Z; tv_sec : Z; tv_usec : Z }.

(** Width of [unsigned long] on the target. *)
Variable ulong_bits : Z.

(** Lines 561-593 on the shared mailbox. *)
Definition drain_phase (l : plocals) (st : pstate) : plocals * pstate :=
  let st1 := sync st in
  let '(cl, dc, nc) :=
    discovery_drain (NewClient (wsh (pw st1))) (Clients l) (DeviceCount l) in
  (mkLocals cl dc (last_topology l) (topo l),
   mkP (mkWorld (set_NewClient nc (wsh (pw st1))) (IdleTime (pw st1)))
       (psched st1) (plog st1)).

(** Lines 596-650. *)
Definition topology_phase (k : clock) (l : plocals) (st : pstate)
    : plocals * pstate :=
  if TOPOLOGY_SECS <? (now k - last_topology l) mod 2 ^ ulong_bits then
    let '(t', payload, _) :=
      build_topology (Clients l) (DeviceCount l) (tv_sec k) (tv_usec k)
                     (topo l) in
    let st := emit (Sendto s payload) st in
    let st := emit Tcdrain st in
    let st := emit Tcflush st in
    let st := emit (Msleep 500) st in
    (mkLocals (Clients l) (DeviceCount l) (now k) t', st)
  else (l, st).

Definition poll_iteration (k : clock) (l : plocals) (st : pstate)
    : option (plocals * pstate) :=
  let '(l1, st1) := drain_phase l st in
  let '(l2, st2) := topology_phase k l1 st1 in
  match poll_round (Clients l2) st2 with
  | None => None
  | Some (st3, _) => Some (l2, st3)
  end.

(** The main loop run over a list of clock readings, one per iteration. *)
Fixpoint poll_run (ks : list clock) (l : plocals) (st : pstate)
    : option (plocals * pstate) :=
  match ks with
  | [] => Some (l, st)
  | k :: ks' =>
      match poll_iteration k l st with
      | None => None
      | Some (l1, st1) => poll_run ks' l1 st1
      end
  end.

End Poll.

(** ** The two-process system *)

(** The stores of the poll process into the shared cells. *)
Inductive poll_write : shared -> shared -> Prop :=
  | PW_Resp sh : poll_write sh (set_Resp 0 sh)                    (* line 662 *)
  | PW_End sh : poll_write sh (set_End 0 sh)                      (* line 663 *)
  | PW_arm sh : poll_write sh (set_Nga 1 sh)                      (* line 664 *)
  | PW_disarm sh : poll_write sh (set_Nga 0 sh)                   (* line 684 *)
  | PW_mailbox sh :                                               (* line 592 *)
      poll_write sh (set_NewClient (<[0%nat := 0]> (NewClient sh)) sh).

(** One step of the system: the environment of the poll process moves, or
    the poll process stores into a shared cell. *)
Inductive sys_step (inst : bool) : world -> world -> Prop :=
  | Step_env w e : sys_step inst w (env_step inst w e)
  | Step_poll w sh' :
      poll_write (wsh w) sh' -> sys_step inst w (mkWorld sh' (IdleTime w)).

(** The states the system can be in after [main] has set up the cells. *)
Inductive reachable (inst : bool) : world -> Prop :=
  | Reach_init : reachable inst (mkWorld main_shared 0)
  | Reach_step w w' :
      reachable inst w -> sys_step inst w w' -> reachable inst w'.

(** ** Vocabulary of the statements *)

Definition in_use (c : ClientIP_st) : Prop := used c ≠ 0.

#[export] Instance in_use_dec c : Decision (in_use c).
Proof. unfold in_use. apply _. Defined.

(** The IP-suffix pairs of the in-use records, in table order. *)
Definition keys (cl : list ClientIP_st) : list (Z * Z) :=
  (λ c, (next_to_last c, last c)) <$> filter in_use cl.

Definition count_used (cl : list ClientIP_st) : nat :=
  length (filter in_use cl).

(** No two in-use records of the table carry the same IP-suffix pair. *)
Definition no_duplicate_suffix (cl : list ClientIP_st) : Prop :=
  ∀ (i j : nat) ci cj,
    cl !! i = Some ci → cl !! j = Some cj → in_use ci → in_use cj →
    next_to_last ci = next_to_last cj → last ci = last cj → i = j.

(** The invariant of the poll process on its table and counter. *)
Definition table_ok (cl : list ClientIP_st) (dc : Z) : Prop :=
  length cl = MAX_CLIENTS ∧ NoDup (keys cl) ∧ dc = Z.of_nat (count_used cl).

(** A run of discovery drains, one per mailbox content. *)
Fixpoint drain_all (ms : list (list Z)) (cl : list ClientIP_st)
    (DeviceCount : Z) : list ClientIP_st * Z :=
  match ms with
  | [] => (cl, DeviceCount)
  | nc :: ms' =>
      let '(cl', dc', _) := discovery_drain nc cl DeviceCount in
      drain_all ms' cl' dc'
  end.

(** The transmit buffer has its allocated shape: [MAX_CLIENTS] device areas
    with 18-byte serial numbers. *)
Definition topo_wf (t : topo_buf) : Prop :=
  length (tdevs t) = MAX_CLIENTS ∧
  Forall (λ d, length (serial_number d) = 18%nat) (tdevs t).

(** The state in which the wait of a device poll starts. *)
Definition armed (inst : bool) (c : ClientIP_st) (st : pstate) : pstate :=
  emit Tcflush (emit Tcdrain
    (emit (Sendto s [169; 254; next_to_last c; last c])
       (upd_shared inst (set_Nga 1)
          (upd_shared inst (set_End 0) (upd_shared inst (set_Resp 0) st))))).

(** Every event of the schedule is handled: no signal ends the poll
    process while it runs against it. *)
Definition handled_schedule (inst : bool) (st : pstate) : Prop :=
  Forall (Forall (handled inst)) (psched st).

(** The datagrams handed to [sendto], with their destinations, in order. *)
Definition datagrams (log : list io_event) : list (sockaddr_in * list Z) :=
  omap (λ e, match e with Sendto d p => Some (d, p) | _ => None end) log.

(** ** Sample inputs *)

(** A 60-byte announce frame from 169.254.[a].[b] with serial number [ser]
    (18 bytes): marker at offset 28, last IP byte at 29, next-to-last at 30,
    serial number from offset 32. *)
Definition announce_frame (a b : Z) (ser : list Z) : list Z :=
  replicate 28 0 ++ [0x55; b; a; 0] ++ ser ++ replicate 10 0.

(** "SN0001", zero padded to 18 bytes. *)
Definition sn0001 : list Z := [83; 78; 48; 48; 48; 49] ++ replicate 12 0.

Definition world0 : world := mkWorld main_shared 0.

(** The poll process at start-up with nothing happening around it. *)
Definition quiet : pstate := mkP world0 [] [].

Definition client_10_20 : ClientIP_st := mkClient 1 10 20 sn0001.
Definition client_10_21 : ClientIP_st := mkClient 1 10 21 sn0001.

(** ** msleep (lines 168-188) *)

(* <errno.h> on Linux *)
Definition EINTR : Z := 4.
Definition EINVAL : Z := 22.

Record timespec : Type := mkTimespec { ts_sec : Z; ts_nsec : Z }.

(** What one call [nanosleep(&ts, &ts)] does: it returns 0, or it returns
    -1 with [errno = e]; interrupted ([e = EINTR]) it stores the remaining
    time [rem] in [ts]. *)
Inductive nanosleep_result : Type :=
  | NsOk
  | NsFail (e : Z) (rem : timespec).

(** Lines 182-185, against the results of the successive [nanosleep] calls:
    the value returned, [errno], and the requests made, in order.  [None]
    when the list of results runs out before the loop ends. *)
Fixpoint nanosleep_loop (results : list nanosleep_result) (ts : timespec)
    (errno : Z) (calls : list timespec) : option (Z * Z * list timespec) :=
  match results with
  | [] => None
  | NsOk :: _ => Some (0, errno, calls ++ [ts])
  | NsFail e rem :: rest =>
      if negb (-1 =? 0) && (e =? EINTR)
      then nanosleep_loop rest rem e (calls ++ [ts])
      else Some (-1, e, calls ++ [ts])
  end.

(** Lines 168-188; [/] and [%] of C truncate toward zero. *)
Definition msleep (msec : Z) (errno : Z) (results : list nanosleep_result)
    : option (Z * Z * list timespec) :=
  if msec <? 0 then Some (-1, EINVAL, [])
  else
    nanosleep_loop results
      (mkTimespec (Z.quot msec 1000) (Z.rem msec 1000 * 1000000)) errno [].

(** ** Vocabulary of the further statements *)

(** The milliseconds asked of [msleep] in a log. *)
Definition slept (log : list io_event) : Z :=
  foldr (λ e acc, match e with Msleep m => m + acc | _ => acc end) 0 log.

(** The iterations waited over the device polls of a round. *)
Definition total_idle (os : list (Z * wait_exit)) : Z :=
  foldr (λ o acc, o.1 + acc) 0 os.

(** The poll datagram of a client. *)
Definition poll_datagram (c : ClientIP_st) : sockaddr_in * list Z :=
  (s, [169; 254; next_to_last c; last c]).

(** The 22 bytes a client takes in a topology message built in a buffer
    whose reserved bytes are 0. *)
Definition descriptor (c : ClientIP_st) : list Z :=
  [last c; next_to_last c; 0] ++ sn c ++ [0].

(** Value of four bytes read least significant first. *)
Definition le32 (b0 b1 b2 b3 : Z) : Z :=
  b0 + 256 * b1 + 65536 * b2 + 16777216 * b3.

(** The in-use records come first in the table. *)
Definition packed (cl : list ClientIP_st) : Prop :=
  ∃ us fs, cl = us ++ fs ∧ Forall in_use us ∧ Forall (λ c, ¬ in_use c) fs.

(** An environment event that cannot set [*End]: a receive time-out, an
    outgoing frame, or a frame-start signal. *)
Definition no_end_event (e : env_event) : Prop :=
  match e with
  | Recv n pkttype _ => n ≤ 0 ∨ pkttype = PACKET_OUTGOING
  | Signal _ si_int => si_int = 0
  end.

(** An environment event that cannot set [*Resp]: anything but a
    frame-start signal (signal 44 with payload 0). *)
Definition no_resp_event (e : env_event) : Prop :=
  match e with
  | Recv _ _ _ => True
  | Signal signo si_int => signo ≠ 44 ∨ si_int ≠ 0
  end.

(** The schedule holds no frame-start signal and [*Resp] is 0. *)
Definition resp_quiet (st : pstate) : Prop :=
  Forall (Forall no_resp_event) (psched st) ∧ Resp (wsh (pw st)) = 0.

(** The schedule holds nothing that sets [*End], [*End] is 0 and a
    response has started. *)
Definition end_quiet (st : pstate) : Prop :=
  Forall (Forall no_end_event) (psched st) ∧
  End_ (wsh (pw st)) = 0 ∧ Resp (wsh (pw st)) ≠ 0.

(** The schedule holds nothing that sets [*End] and [*End] is 0. *)
Definition end_clear (st : pstate) : Prop :=
  Forall (Forall no_end_event) (psched st) ∧ End_ (wsh (pw st)) = 0.

(** The mailbox after line 366 and before the copy of line 367: the pair
    and the pending flag are stored over the content [nc], the serial
    number is still the one [nc] held. *)
Definition announce_flagged (buffer nc : list Z) : list Z :=
  <[0%nat := 1]>
    (<[2%nat := byte_at buffer 29]> (<[1%nat := byte_at buffer 30]> nc)).

(** What the poll process can find in the mailbox once the announce frame
    [buffer] has set the pending flag over the content [old]: the flag and
    the pair are stored (lines 364-366, in program order), and each byte of
    the serial number is either already copied by line 367 or still the one
    of [old]. *)
Definition announce_view (old buffer nc : list Z) : Prop :=
  length nc = 21%nat ∧
  byte_at nc 0 = 1 ∧
  byte_at nc 1 = byte_at buffer 30 ∧
  byte_at nc 2 = byte_at buffer 29 ∧
  ∀ i : nat, (i < 18)%nat →
    byte_at nc (3 + i) = byte_at buffer (32 + i) ∨
    byte_at nc (3 + i) = byte_at old (3 + i).

(** The ranges the shared cells are meant to stay in. *)
Definition shared_wf (sh : shared) : Prop :=
  (Resp sh = 0 ∨ Resp sh = 1) ∧ (End_ sh = 0 ∨ End_ sh = 1) ∧
  (Nga sh = 0 ∨ Nga sh = 1) ∧
  length (NewClient sh) = 21%nat ∧
  (byte_at (NewClient sh) 0 = 0 ∨ byte_at (NewClient sh) 0 = 1).

(** * Proofs *)

(** ** Byte arrays *)

Lemma length_memcpy dst doff src soff n :
  length (memcpy dst doff src soff n) = length dst.
Proof.
  revert dst doff soff.
  induction n as [|n IH]; intros dst doff soff; simpl; [done|].
  by rewrite IH, length_insert.
Qed.

Lemma memcpy_lookup dst doff src soff n (p : nat) :
  memcpy dst doff src soff n !! p =
  if decide (doff ≤ p < doff + n)%nat
  then (λ _, byte_at src (soff + (p - doff))) <$> dst !! p
  else dst !! p.
Proof.
  revert dst doff soff.
  induction n as [|n IH]; intros dst doff soff; simpl.
  - case_decide; [lia|done].
  - rewrite IH, list_lookup_insert.
    repeat case_decide; try lia; try done.
    + destruct (dst !! p); simpl; [|done]. do 2 f_equal. lia.
    + destruct (lookup_lt_is_Some_2 dst p) as [x Hx]; [lia|].
      rewrite Hx. simpl. do 2 f_equal. lia.
    + rewrite (lookup_ge_None_2 dst p) by lia. done.
Qed.

(** Copying the same source twice is copying it once. *)
Lemma memcpy_idemp dst doff src soff n :
  memcpy (memcpy dst doff src soff n) doff src soff n =
  memcpy dst doff src soff n.
Proof.
  apply list_eq. intros p. rewrite !memcpy_lookup.
  case_decide; [|done]. by destruct (dst !! p).
Qed.

#[global] Arguments memcpy : simpl never.

(** ** In-use records *)

Lemma keys_cons_used c cl :
  in_use c → keys (c :: cl) = (next_to_last c, last c) :: keys cl.
Proof. intros H. unfold keys. by rewrite filter_cons_True. Qed.

Lemma keys_cons_free c cl : ¬ in_use c → keys (c :: cl) = keys cl.
Proof. intros H. unfold keys. by rewrite filter_cons_False. Qed.

Lemma count_used_cons_used c cl :
  in_use c → count_used (c :: cl) = S (count_used cl).
Proof. intros H. unfold count_used. by rewrite filter_cons_True. Qed.

Lemma count_used_cons_free c cl :
  ¬ in_use c → count_used (c :: cl) = count_used cl.
Proof. intros H. unfold count_used. by rewrite filter_cons_False. Qed.

Lemma count_used_le cl : (count_used cl ≤ length cl)%nat.
Proof. apply length_filter. Qed.

Lemma in_use_eqb c : (used c =? 0) = bool_decide (¬ in_use c).
Proof.
  unfold in_use. destruct (Z.eqb_spec (used c) 0) as [H|H].
  - symmetry. apply bool_decide_eq_true. tauto.
  - symmetry. apply bool_decide_eq_false. tauto.
Qed.

Lemma used_cases c :
  (used c =? 0) = true ∧ ¬ in_use c ∨ (used c =? 0) = false ∧ in_use c.
Proof.
  unfold in_use. destruct (Z.eqb_spec (used c) 0); [left|right]; tauto.
Qed.

(** ** Capture process *)

Lemma filter_iteration_NewClient n pkttype buffer w :
  0 < n →
  NewClient (wsh (fst (filter_iteration n pkttype buffer w))) =
  NewClient (fst (announce_check n buffer (wsh w))).
Proof.
  intros Hn. unfold filter_iteration.
  destruct (Z.ltb_spec 0 n); [|lia].
  unfold announce_check.
  destruct (pkttype =? PACKET_OUTGOING); simpl;
    destruct (n =? 60); simpl; try done;
    destruct (byte_at buffer 28 =? 85); simpl; try done;
    destruct (byte_at (NewClient (wsh w)) 0 =? 0); done.
Qed.

Lemma announce_check_mailbox buffer (nc : list Z) :
  length nc = 21%nat →
  memcpy (<[0%nat := 1]> (<[2%nat := byte_at buffer 29]>
            (<[1%nat := byte_at buffer 30]> nc))) 3 buffer 32 18 =
  [1; byte_at buffer 30; byte_at buffer 29] ++ (byte_at buffer <$> seq 32 18).
Proof.
  intros Hlen.
  do 21 (destruct nc as [|? nc]; [discriminate Hlen|]).
  destruct nc; [|discriminate Hlen].
  reflexivity.
Qed.

(** C5 (as the code has it): a frame captured with direction
    [PACKET_OUTGOING] is logged ("OUT:") and leaves [*End] and [IdleTime] as
    they were; every other frame sets [*End = 1] and resets [IdleTime]. *)
Theorem C5_direction n pkttype buffer w :
  0 < n →
  let w' := fst (filter_iteration n pkttype buffer w) in
  let log := snd (filter_iteration n pkttype buffer w) in
  (pkttype = PACKET_OUTGOING →
     End_ (wsh w') = End_ (wsh w) ∧ IdleTime w' = IdleTime w ∧
     head log = Some LogOut) ∧
  (pkttype ≠ PACKET_OUTGOING →
     End_ (wsh w') = 1 ∧ IdleTime w' = 0 ∧ head log = Some LogRx).
Proof.
  intros Hn. unfold filter_iteration.
  destruct (Z.ltb_spec 0 n); [|lia].
  unfold announce_check.
  split; intros Hp.
  - rewrite Hp, Z.eqb_refl. simpl.
    destruct (n =? 60); simpl; try done;
    destruct (byte_at buffer 28 =? 85); simpl; try done;
    destruct (byte_at (NewClient (wsh w)) 0 =? 0); done.
  - destruct (Z.eqb_spec pkttype PACKET_OUTGOING); [done|]. simpl.
    destruct (n =? 60); simpl; try done;
    destruct (byte_at buffer 28 =? 85); simpl; try done;
    destruct (byte_at (NewClient (wsh w)) 0 =? 0); done.
Qed.

Lemma C5_direction_witness :
  0 < 60 ∧
  let w' := fst (filter_iteration 60 PACKET_OUTGOING
                   (announce_frame 10 20 sn0001) world0) in
  End_ (wsh w') = 0 ∧ IdleTime w' = 0.
Proof.
  split; [lia|].
  destruct (C5_direction 60 PACKET_OUTGOING (announce_frame 10 20 sn0001)
              world0) as [Hout _]; [lia|].
  destruct (Hout eq_refl) as (HE & HI & _).
  split; [exact HE | exact HI].
Defined.

(** C5 fails as stated: an outgoing frame of 60 bytes with the marker is
    published into the empty mailbox. *)
Lemma C5_outgoing_publishes :
  let w' := fst (filter_iteration 60 PACKET_OUTGOING
                   (announce_frame 10 20 sn0001) world0) in
  NewClient (wsh w') = [1; 10; 20] ++ sn0001 ∧
  NewClient (wsh w') ≠ NewClient (wsh world0).
Proof. split; [reflexivity|]. vm_compute. discriminate. Qed.

(** C6: a frame is handled as an announce exactly when [n = 60] and
    [buffer[28] = 0x55]; with [NewClient[0] = 0] the mailbox becomes
    [1, buffer[30], buffer[29], buffer[32..49]], with [NewClient[0] <> 0] it
    is left as it is, and no other frame changes it. *)
Theorem C6_announce n pkttype buffer w :
  0 < n →
  length (NewClient (wsh w)) = 21%nat →
  let nc := NewClient (wsh w) in
  let nc' := NewClient (wsh (fst (filter_iteration n pkttype buffer w))) in
  (n = 60 ∧ byte_at buffer 28 = 0x55 →
     (byte_at nc 0 = 0 →
        nc' = [1; byte_at buffer 30; byte_at buffer 29]
              ++ (byte_at buffer <$> seq 32 18)) ∧
     (byte_at nc 0 ≠ 0 → nc' = nc)) ∧
  (¬ (n = 60 ∧ byte_at buffer 28 = 0x55) → nc' = nc).
Proof.
  intros Hn Hlen nc nc'. subst nc'.
  rewrite filter_iteration_NewClient by done.
  unfold announce_check. fold nc.
  split.
  - intros [-> Hm]. rewrite Hm. simpl. split; intros Hp.
    + rewrite Hp. simpl. by apply announce_check_mailbox.
    + destruct (Z.eqb_spec (byte_at nc 0) 0); done.
  - intros Hno.
    destruct (Z.eqb_spec n 60); [|done].
    destruct (Z.eqb_spec (byte_at buffer 28) 0x55); [|done].
    by destruct Hno.
Qed.

Lemma C6_announce_witness :
  (0 < 60 ∧ length (NewClient (wsh world0)) = 21%nat) ∧
  NewClient (wsh (fst (filter_iteration 60 0 (announce_frame 10 20 sn0001)
                         world0))) =
  [1; 10; 20] ++ sn0001.
Proof.
  split; [split; [lia|reflexivity]|].
  destruct (C6_announce 60 0 (announce_frame 10 20 sn0001) world0)
    as [Hyes _]; [lia|reflexivity|].
  destruct Hyes as [Hpub _]; [split; reflexivity|].
  exact (Hpub eq_refl).
Defined.

(** ** The environment and the flags *)

Lemma announce_check_flags n buffer sh :
  let sh' := fst (announce_check n buffer sh) in
  Resp sh' = Resp sh ∧ End_ sh' = End_ sh ∧ Nga sh' = Nga sh.
Proof.
  unfold announce_check.
  destruct (n =? 60); simpl; try done;
    destruct (byte_at buffer 28 =? 85); simpl; try done;
    destruct (byte_at (NewClient sh) 0 =? 0); done.
Qed.

Lemma filter_iteration_flags n pkttype buffer w :
  let w' := fst (filter_iteration n pkttype buffer w) in
  Resp (wsh w') = Resp (wsh w) ∧ Nga (wsh w') = Nga (wsh w) ∧
  (End_ (wsh w) ≠ 0 → End_ (wsh w') ≠ 0).
Proof.
  unfold filter_iteration.
  destruct (0 <? n); [|done].
  destruct (pkttype =? PACKET_OUTGOING).
  - destruct (announce_check_flags n buffer (wsh w)) as (HR & HE & HN).
    destruct (announce_check n buffer (wsh w)) as [s2 l2]. simpl in *.
    rewrite HR, HE, HN. done.
  - destruct (announce_check_flags n buffer (set_End 1 (wsh w)))
      as (HR & HE & HN).
    destruct (announce_check n buffer (set_End 1 (wsh w))) as [s2 l2].
    simpl in *. rewrite HR, HE, HN. done.
Qed.

Lemma sig_event_handler_flags n si_int sh :
  let sh' := sig_event_handler n si_int sh in
  (Resp sh ≠ 0 → Resp sh' ≠ 0) ∧ (End_ sh ≠ 0 → End_ sh' ≠ 0) ∧
  Nga sh' = Nga sh ∧ NewClient sh' = NewClient sh.
Proof.
  unfold sig_event_handler.
  destruct ((n =? 44) && (Nga sh =? 1)); [|done].
  destruct (si_int =? 0); simpl; done.
Qed.

(** A flag that is set stays set until the poll process clears it, and only
    the poll process writes [*Nga]. *)
Lemma env_step_flags inst w e :
  let w' := env_step inst w e in
  (Resp (wsh w) ≠ 0 → Resp (wsh w') ≠ 0) ∧
  (End_ (wsh w) ≠ 0 → End_ (wsh w') ≠ 0) ∧
  Nga (wsh w') = Nga (wsh w).
Proof.
  destruct e as [n pkttype buffer|signo si_int]; simpl.
  - destruct (filter_iteration_flags n pkttype buffer w) as (HR & HN & HE).
    rewrite HR. done.
  - destruct inst; [|done]. simpl.
    destruct (sig_event_handler_flags signo si_int (wsh w))
      as (HR & HE & HN & _). done.
Qed.

Lemma env_run_flags inst evs w :
  let w' := env_run inst evs w in
  (Resp (wsh w) ≠ 0 → Resp (wsh w') ≠ 0) ∧
  (End_ (wsh w) ≠ 0 → End_ (wsh w') ≠ 0) ∧
  Nga (wsh w') = Nga (wsh w).
Proof.
  unfold env_run. revert w.
  induction evs as [|e evs IH]; intros w; simpl; [done|].
  destruct (IH (env_step inst w e)) as (HR & HE & HN).
  destruct (env_step_flags inst w e) as (HR' & HE' & HN').
  rewrite HN, HN'. auto.
Qed.

(** Without the handler nothing in the environment writes [*Resp]. *)
Lemma env_step_Resp_uninstalled w e :
  Resp (wsh (env_step false w e)) = Resp (wsh w).
Proof.
  destruct e as [n pkttype buffer|signo si_int]; simpl; [|done].
  by destruct (filter_iteration_flags n pkttype buffer w) as (HR & _).
Qed.

Lemma env_run_Resp_uninstalled evs w :
  Resp (wsh (env_run false evs w)) = Resp (wsh w).
Proof.
  unfold env_run. revert w.
  induction evs as [|e evs IH]; intros w; simpl; [done|].
  by rewrite IH, env_step_Resp_uninstalled.
Qed.

Lemma sync_flags inst st :
  let st' := sync inst st in
  (Resp (wsh (pw st)) ≠ 0 → Resp (wsh (pw st')) ≠ 0) ∧
  (End_ (wsh (pw st)) ≠ 0 → End_ (wsh (pw st')) ≠ 0) ∧
  Nga (wsh (pw st')) = Nga (wsh (pw st)) ∧
  plog st' = plog st.
Proof.
  unfold sync. destruct (psched st) as [|evs rest]; simpl; [done|].
  destruct (env_run_flags inst evs (pw st)) as (HR & HE & HN). done.
Qed.

Lemma sync_Resp_uninstalled st :
  Resp (wsh (pw (sync false st))) = Resp (wsh (pw st)).
Proof.
  unfold sync. destruct (psched st) as [|evs rest]; simpl; [done|].
  apply env_run_Resp_uninstalled.
Qed.

(** ** The bounded wait (lines 671-678) *)

Lemma log_msleep_step {A} (x : A) (idle idle' : Z) (l : list A) :
  idle + 1 ≤ idle' →
  (l ++ [x]) ++ replicate (Z.to_nat (idle' - (idle + 1))) x =
  l ++ replicate (Z.to_nat (idle' - idle)) x.
Proof.
  intros H. rewrite <- app_assoc. f_equal.
  replace (Z.to_nat (idle' - idle))
    with (S (Z.to_nat (idle' - (idle + 1)))) by lia.
  done.
Qed.

Lemma poll_wait_spec inst fuel : ∀ st idle,
  0 ≤ idle ≤ MAX_RESPONSE_TIME →
  (Resp (wsh (pw st)) = 0 → idle ≤ IDLE_POLL) →
  MAX_RESPONSE_TIME + 1 - idle ≤ Z.of_nat fuel →
  ∃ st' idle' why,
    poll_wait inst fuel st idle = Some (st', idle', why) ∧
    idle ≤ idle' ≤ MAX_RESPONSE_TIME ∧
    plog st' = plog st ++ replicate (Z.to_nat (idle' - idle)) (Msleep 1) ∧
    match why with
    | ExitBreak =>
        End_ (wsh (pw st')) ≠ 0 ∧ Resp (wsh (pw st')) ≠ 0
    | ExitBudget r =>
        r = Resp (wsh (pw st')) ∧
        (r = 0 → idle' = IDLE_POLL) ∧ (r ≠ 0 → idle' = MAX_RESPONSE_TIME)
    end.
Proof.
  unfold MAX_RESPONSE_TIME, IDLE_POLL.
  induction fuel as [|fuel IH]; intros st idle Hidle Hinv Hfuel; [lia|].
  simpl. unfold MAX_RESPONSE_TIME, IDLE_POLL.
  destruct (sync_flags inst st) as (HR1 & _ & _ & HL1).
  set (st1 := sync inst st) in *.
  set (r := Resp (wsh (pw st1))) in *.
  assert (Hinv1 : r = 0 → idle ≤ 150).
  { intros H0. apply Hinv.
    destruct (Z.eq_dec (Resp (wsh (pw st))) 0) as [|Hne]; [done|].
    by apply HR1 in Hne. }
  assert (Hcont : ∀ stn,
    (Resp (wsh (pw st1)) ≠ 0 → Resp (wsh (pw stn)) ≠ 0) →
    plog stn = plog st ++ [Msleep 1] →
    (if r =? 0 then idle <? 150 else idle <? 600) = true →
    ∃ st' idle' why,
      poll_wait inst fuel stn (idle + 1) = Some (st', idle', why) ∧
      idle ≤ idle' ≤ 600 ∧
      plog st' = plog st ++ replicate (Z.to_nat (idle' - idle)) (Msleep 1) ∧
      match why with
      | ExitBreak => End_ (wsh (pw st')) ≠ 0 ∧ Resp (wsh (pw st')) ≠ 0
      | ExitBudget r0 =>
          r0 = Resp (wsh (pw st')) ∧
          (r0 = 0 → idle' = 150) ∧ (r0 ≠ 0 → idle' = 600)
      end).
  { intros stn Hmono Hlog Hc.
    assert (idle + 1 ≤ 600 ∧ (r = 0 → idle + 1 ≤ 150)) as [Hb1 Hb2].
    { destruct (Z.eqb_spec r 0); apply Z.ltb_lt in Hc; lia. }
    destruct (IH stn (idle + 1)) as (st' & idle' & why & Hw & Hr & Hl & Hy).
    - lia.
    - intros H0. apply Hb2.
      destruct (Z.eq_dec r 0) as [|Hne]; [done|]. by apply Hmono in Hne.
    - lia.
    - exists st', idle', why. split; [done|]. split; [lia|]. split; [|done].
      rewrite Hl, Hlog. apply log_msleep_step. lia. }
  destruct (if r =? 0 then idle <? 150 else idle <? 600) eqn:Hc.
  - (* the loop body runs *)
    destruct (sync_flags inst (emit (Msleep 1) st1)) as (HR3 & HE3 & _ & HL3).
    set (st3 := sync inst (emit (Msleep 1) st1)) in *.
    destruct (Z.eqb_spec (End_ (wsh (pw st3))) 0) as [He|He]; simpl.
    + apply Hcont; [exact HR3| |done].
      rewrite HL3. simpl. by rewrite HL1.
    + destruct (sync_flags inst st3) as (HR4 & HE4 & _ & HL4).
      set (st4 := sync inst st3) in *.
      destruct (Z.eqb_spec (Resp (wsh (pw st4))) 0) as [Hr4|Hr4]; simpl.
      * apply Hcont; [|rewrite HL4, HL3; simpl; by rewrite HL1|done].
        intros Hne. apply HR4, HR3. exact Hne.
      * exists st4, (idle + 1), ExitBreak.
        assert (idle + 1 ≤ 600).
        { destruct (Z.eqb_spec r 0); apply Z.ltb_lt in Hc; lia. }
        split; [done|]. split; [lia|]. split; [|by auto].
        rewrite HL4, HL3. simpl. rewrite HL1.
        replace (idle + 1 - idle) with 1 by lia. done.
  - (* the loop condition fails *)
    exists st1, idle, (ExitBudget r).
    rewrite Z.sub_diag. simpl. rewrite app_nil_r.
    split; [done|]. split; [lia|]. split; [done|]. split; [done|].
    destruct (Z.eqb_spec r 0) as [Hr|Hr]; apply Z.ltb_ge in Hc;
      split; intros; try done; try lia.
Qed.

(** The wait of a device poll, started at [idle = 0] with [wait_fuel]. *)
Lemma poll_wait_total inst st :
  ∃ st' idle why,
    poll_wait inst wait_fuel st 0 = Some (st', idle, why) ∧
    0 ≤ idle ≤ Z.max IDLE_POLL MAX_RESPONSE_TIME ∧
    plog st' = plog st ++ replicate (Z.to_nat idle) (Msleep 1) ∧
    (Resp (wsh (pw st')) = 0 → idle = IDLE_POLL ∧ why = ExitBudget 0) ∧
    match why with
    | ExitBreak => End_ (wsh (pw st')) ≠ 0 ∧ Resp (wsh (pw st')) ≠ 0
    | ExitBudget r =>
        r = Resp (wsh (pw st')) ∧
        (r = 0 → idle = IDLE_POLL) ∧ (r ≠ 0 → idle = MAX_RESPONSE_TIME)
    end.
Proof.
  destruct (poll_wait_spec inst wait_fuel st 0)
    as (st' & idle & why & Hw & Hr & Hl & Hy).
  - unfold MAX_RESPONSE_TIME. lia.
  - unfold IDLE_POLL. lia.
  - unfold MAX_RESPONSE_TIME, wait_fuel. lia.
  - exists st', idle, why. rewrite Z.sub_0_r in Hl.
    split; [done|]. split; [unfold IDLE_POLL, MAX_RESPONSE_TIME in *; lia|].
    split; [done|]. split; [|done].
    intros H0. destruct why as [r|].
    + destruct Hy as (-> & Hz & _). rewrite H0. auto.
    + by destruct Hy as [_ []].
Qed.


(** C1: the wait of lines 671-678 returns after at most
    [max(IDLE_POLL, MAX_RESPONSE_TIME)] iterations, each sleeping 1 ms; it
    ends by the break only with [*End] and [*Resp] both nonzero, otherwise
    at 150 iterations when [*Resp] is read 0 and at 600 when it is read
    nonzero; while [*Resp] stays 0 it ends at 150 whatever [*End] holds. *)
Theorem C1_poll_wait_bounded inst st :
  ∃ st' idle why,
    poll_wait inst wait_fuel st 0 = Some (st', idle, why) ∧
    0 ≤ idle ≤ Z.max IDLE_POLL MAX_RESPONSE_TIME ∧
    plog st' = plog st ++ replicate (Z.to_nat idle) (Msleep 1) ∧
    (Resp (wsh (pw st')) = 0 → idle = IDLE_POLL ∧ why = ExitBudget 0) ∧
    match why with
    | ExitBreak => End_ (wsh (pw st')) ≠ 0 ∧ Resp (wsh (pw st')) ≠ 0
    | ExitBudget r =>
        r = Resp (wsh (pw st')) ∧
        (r = 0 → idle = IDLE_POLL) ∧ (r ≠ 0 → idle = MAX_RESPONSE_TIME)
    end.
Proof. apply poll_wait_total. Qed.

(** ** One device poll and the poll round *)

Lemma poll_wait_preserves inst (P : world → Prop) :
  (∀ st, P (pw st) → P (pw (sync inst st))) →
  ∀ fuel st idle st' idle' why,
    poll_wait inst fuel st idle = Some (st', idle', why) →
    P (pw st) → P (pw st').
Proof.
  intros HP. induction fuel as [|fuel IH]; intros st idle st' idle' why;
    simpl; [done|].
  intros Hw HPst.
  assert (H1 : P (pw (sync inst st))) by auto.
  assert (H3 : P (pw (sync inst (emit (Msleep 1) (sync inst st)))))
    by (apply HP; exact H1).
  repeat case_match; simplify_eq; eauto.
Qed.

Lemma sync_Nga inst v st :
  Nga (wsh (pw st)) = v → Nga (wsh (pw (sync inst st))) = v.
Proof. intros <-. by destruct (sync_flags inst st) as (_ & _ & HN & _). Qed.

Lemma armed_log inst c st :
  plog (armed inst c st) =
  plog st ++ [Sendto s [169; 254; next_to_last c; last c]; Tcdrain; Tcflush].
Proof.
  unfold armed, emit, upd_shared; simpl.
  repeat match goal with
  | |- context [plog (sync inst ?x)] =>
      let H := fresh in
      destruct (sync_flags inst x) as (_ & _ & _ & H); rewrite H; clear H;
      simpl
  end.
  by rewrite <- !app_assoc.
Qed.

Lemma poll_device_spec inst c st :
  ∃ stw idle why,
    poll_wait inst wait_fuel (armed inst c st) 0 = Some (stw, idle, why) ∧
    let st' := if Resp (wsh (pw (sync inst stw))) =? 1
               then emit PrintX (sync inst stw) else sync inst stw in
    poll_device inst c st = Some (st', (idle, why)) ∧
    0 ≤ idle ≤ MAX_RESPONSE_TIME ∧
    (Resp (wsh (pw stw)) = 0 → idle = IDLE_POLL ∧ why = ExitBudget 0) ∧
    Nga (wsh (pw st')) = 1 ∧
    plog st' =
      plog st ++ [Sendto s [169; 254; next_to_last c; last c]; Tcdrain; Tcflush]
        ++ replicate (Z.to_nat idle) (Msleep 1)
        ++ (if Resp (wsh (pw st')) =? 1 then [PrintX] else []).
Proof.
  destruct (poll_wait_total inst (armed inst c st))
    as (stw & idle & why & Hw & Hr & Hl & H0 & _).
  exists stw, idle, why. split; [done|].
  assert (HN : Nga (wsh (pw stw)) = 1).
  { eapply (poll_wait_preserves inst (λ w, Nga (wsh w) = 1));
      [intros; by apply sync_Nga|exact Hw|done]. }
  apply (sync_Nga inst) in HN.
  destruct (sync_flags inst stw) as (_ & _ & _ & HLs).
  split; [|split; [unfold IDLE_POLL, MAX_RESPONSE_TIME in *; lia|split; [done|]]].
  - unfold poll_device. unfold armed in Hw. simpl take. by rewrite Hw.
  - rewrite armed_log in Hl.
    destruct (Resp (wsh (pw (sync inst stw))) =? 1) eqn:HX; simpl.
    + rewrite HX. split; [done|]. rewrite HLs, Hl.
      by rewrite <- !app_assoc.
    + rewrite HX. split; [done|]. rewrite HLs, Hl, app_nil_r.
      by rewrite <- !app_assoc.
Qed.

Lemma poll_clients_total inst (Q : Z * wait_exit → Prop)
    (R : pstate → pstate → Prop) :
  (∀ st, R st st) →
  (∀ st1 st2 st3, R st1 st2 → R st2 st3 → R st1 st3) →
  (∀ c st, ∃ st' o, poll_device inst c st = Some (st', o) ∧ Q o ∧ R st st') →
  ∀ cl st, ∃ st' os,
    poll_clients inst cl st = Some (st', os) ∧ Forall Q os ∧ R st st'.
Proof.
  intros Hrefl Htrans Hdev.
  induction cl as [|c cl IH]; intros st; simpl.
  - exists st, []. auto.
  - destruct (negb (used c =? 0)); [|apply IH].
    destruct (Hdev c st) as (st1 & o & -> & HQ & HR1).
    destruct (IH st1) as (st2 & os & -> & HQs & HR2).
    exists st2, (o :: os). eauto.
Qed.





Lemma datagrams_app l1 l2 : datagrams (l1 ++ l2) = datagrams l1 ++ datagrams l2.
Proof. apply omap_app. Qed.

Lemma datagrams_msleep n : datagrams (replicate n (Msleep 1)) = [].
Proof. induction n; simpl; done. Qed.

(** C4 (as the code has it): a device poll hands exactly one datagram to
    [sendto]; its four bytes are 169, 254, octet3, octet4 of the client and
    its destination is the address set up once at start-up,
    169.254.255.255 port 30000. *)
Theorem C4_poll_datagram inst c st :
  ∃ st' o,
    poll_device inst c st = Some (st', o) ∧
    datagrams (plog st') =
      datagrams (plog st) ++
      [(mkSockaddr 30000 (169, 254, 255, 255),
        [169; 254; next_to_last c; last c])].
Proof.
  destruct (poll_device_spec inst c st)
    as (stw & idle & why & _ & Hd & _ & _ & _ & Hl).
  eexists _, _. split; [exact Hd|].
  rewrite Hl, !datagrams_app, datagrams_msleep.
  f_equal.
  match goal with |- context [if ?b then _ else _] => by destruct b end.
Qed.

(** C4 fails as stated: the poll of the client 169.254.10.20 is sent to
    169.254.255.255, its own address is the payload. *)
Lemma C4_sent_to_broadcast :
  ∃ st' o,
    poll_device handler_installed client_10_20 quiet = Some (st', o) ∧
    datagrams (plog st') =
      [(mkSockaddr 30000 (169, 254, 255, 255), [169; 254; 10; 20])] ∧
    sin_addr (mkSockaddr 30000 (169, 254, 255, 255)) ≠ (169, 254, 10, 20).
Proof.
  do 2 eexists.
  split; [vm_compute; reflexivity|].
  split; [vm_compute; reflexivity|discriminate].
Qed.

(** ** The system without the signal handler *)

Lemma armed_Resp_uninstalled c st :
  Resp (wsh (pw (armed false c st))) = 0.
Proof.
  unfold armed, emit, upd_shared. simpl.
  do 2 (rewrite sync_Resp_uninstalled; simpl). done.
Qed.

Lemma poll_device_uninstalled c st :
  ∃ st',
    poll_device false c st = Some (st', (IDLE_POLL, ExitBudget 0)) ∧
    Resp (wsh (pw st')) = 0 ∧
    plog st' =
      plog st ++ [Sendto s [169; 254; next_to_last c; last c]; Tcdrain; Tcflush]
        ++ replicate 150 (Msleep 1).
Proof.
  destruct (poll_device_spec false c st)
    as (stw & idle & why & Hw & Hd & _ & H0 & _ & Hl).
  assert (HR : Resp (wsh (pw stw)) = 0).
  { eapply (poll_wait_preserves false (λ w, Resp (wsh w) = 0));
      [|exact Hw|apply armed_Resp_uninstalled].
    intros st0 Hst0. by rewrite sync_Resp_uninstalled. }
  destruct (H0 HR) as [-> ->].
  assert (HR' : Resp (wsh (pw (sync false stw))) = 0)
    by (by rewrite sync_Resp_uninstalled).
  rewrite HR' in Hd, Hl.
  change (0 =? 1) with false in Hd, Hl. cbv iota in Hd, Hl.
  rewrite HR' in Hl. change (0 =? 1) with false in Hl. cbv iota in Hl.
  exists (sync false stw). split; [exact Hd|]. split; [exact HR'|].
  rewrite Hl, app_nil_r. reflexivity.
Qed.

Lemma poll_write_Resp sh sh' :
  poll_write sh sh' → Resp sh = 0 → Resp sh' = 0.
Proof. by destruct 1. Qed.

Lemma reachable_Resp_uninstalled w :
  reachable false w → Resp (wsh w) = 0.
Proof.
  induction 1 as [|w w' _ IH Hstep]; [done|].
  destruct Hstep as [w e|w sh' Hw].
  - by rewrite env_step_Resp_uninstalled.
  - simpl. by eapply poll_write_Resp.
Qed.

(** ** The poll process stays within the reachable states *)

Lemma env_run_reachable inst evs w :
  reachable inst w → reachable inst (env_run inst evs w).
Proof.
  unfold env_run. revert w.
  induction evs as [|e evs IH]; intros w Hw; simpl; [done|].
  apply IH. eapply Reach_step; [exact Hw|constructor].
Qed.

Lemma sync_reachable inst st :
  reachable inst (pw st) → reachable inst (pw (sync inst st)).
Proof.
  unfold sync. destruct (psched st); simpl; [done|].
  apply env_run_reachable.
Qed.

Lemma upd_shared_reachable inst f st :
  (∀ sh, poll_write sh (f sh)) →
  reachable inst (pw st) → reachable inst (pw (upd_shared inst f st)).
Proof.
  intros Hf Hst. unfold upd_shared. simpl.
  eapply Reach_step; [apply sync_reachable, Hst|].
  apply Step_poll, Hf.
Qed.

Lemma poll_device_reachable inst c st st' o :
  poll_device inst c st = Some (st', o) →
  reachable inst (pw st) → reachable inst (pw st').
Proof.
  intros Hd Hst.
  destruct (poll_device_spec inst c st)
    as (stw & idle & why & Hw & Hd' & _).
  rewrite Hd in Hd'. injection Hd' as -> _.
  assert (reachable inst (pw (sync inst stw))).
  { apply sync_reachable.
    eapply (poll_wait_preserves inst (reachable inst));
      [apply sync_reachable|exact Hw|].
    unfold armed. simpl.
    repeat (apply upd_shared_reachable; [constructor|]). exact Hst. }
  by destruct (_ =? 1).
Qed.

Lemma poll_round_reachable inst cl st st' os :
  poll_round inst cl st = Some (st', os) →
  reachable inst (pw st) → reachable inst (pw st').
Proof.
  unfold poll_round. intros Hr Hst.
  destruct (poll_clients_total inst (λ _, True)
              (λ a b, reachable inst (pw a) → reachable inst (pw b)))
    with (cl := cl) (st := st) as (st1 & os1 & Hc & _ & HR); [auto..| |].
  - intros c st0.
    destruct (poll_device_spec inst c st0)
      as (stw & idle & why & _ & Hd & _).
    eexists _, _. split; [exact Hd|]. split; [done|].
    intros Hst0. by eapply poll_device_reachable.
  - rewrite Hc in Hr. injection Hr as <- _.
    apply upd_shared_reachable; [constructor|auto].
Qed.

Lemma set_NewClient_id sh : set_NewClient (NewClient sh) sh = sh.
Proof. by destruct sh. Qed.

Lemma drain_phase_reachable inst l st :
  reachable inst (pw st) →
  reachable inst (pw (snd (drain_phase inst l st))).
Proof.
  intros Hst. apply (sync_reachable inst) in Hst.
  unfold drain_phase, discovery_drain.
  destruct (negb (byte_at (NewClient (wsh (pw (sync inst st)))) 0 =? 0)).
  - destruct (if find_existing _ _ =? 0 then _ else _) as [cl' dc']. simpl.
    eapply Reach_step; [exact Hst|]. apply Step_poll. constructor.
  - simpl. rewrite set_NewClient_id. by destruct (pw (sync inst st)).
Qed.

Lemma topology_phase_world ub k l st :
  pw (snd (topology_phase ub k l st)) = pw st.
Proof.
  unfold topology_phase. destruct (_ <? _); [|done].
  by destruct (build_topology _ _ _ _ _) as [[t' payload] u].
Qed.

Lemma poll_iteration_reachable inst ub k l st l' st' :
  poll_iteration inst ub k l st = Some (l', st') →
  reachable inst (pw st) → reachable inst (pw st').
Proof.
  unfold poll_iteration. intros Hi Hst.
  apply (drain_phase_reachable inst l) in Hst.
  destruct (drain_phase inst l st) as [l1 st1]. simpl in Hst.
  rewrite <- (topology_phase_world ub k l1 st1) in Hst.
  destruct (topology_phase ub k l1 st1) as [l2 st2]. simpl in Hst.
  destruct (poll_round inst (Clients l2) st2) as [[st3 os]|] eqn:Hr; [|done].
  injection Hi as _ <-. by eapply poll_round_reachable.
Qed.

(** Every state in which the main loop of the poll process stands between
    two iterations is a reachable state of the system. *)
Lemma poll_run_reachable inst ub ks : ∀ l st l' st',
  poll_run inst ub ks l st = Some (l', st') →
  reachable inst (pw st) → reachable inst (pw st').
Proof.
  induction ks as [|k ks IH]; intros l st l' st'; simpl.
  - by intros [= _ <-].
  - destruct (poll_iteration inst ub k l st) as [[l1 st1]|] eqn:Hi; [|done].
    intros Hrun Hst. eapply IH; [exact Hrun|].
    by eapply poll_iteration_reachable.
Qed.

(** C9: the handler is not installed; hence [*Resp] is 0 in every reachable
    state of the two processes, and every device poll and every poll round
    that the process lives through (its schedule holds no signal, since no
    signal would find a handler) waits exactly [IDLE_POLL] iterations per
    device and leaves the loop through its condition with [*Resp] read 0
    (never through the break), and "X" is never printed. *)
Theorem C9_response_never_started :
  handler_installed = false ∧
  (∀ w, reachable handler_installed w → Resp (wsh w) = 0) ∧
  (∀ c st,
     handled_schedule handler_installed st →
     ∃ st',
       poll_device handler_installed c st =
         Some (st', (IDLE_POLL, ExitBudget 0)) ∧
       plog st' =
         plog st ++
         [Sendto s [169; 254; next_to_last c; last c]; Tcdrain; Tcflush] ++
         replicate 150 (Msleep 1)) ∧
  (∀ cl st,
     handled_schedule handler_installed st →
     ∃ st' os,
       poll_round handler_installed cl st = Some (st', os) ∧
       Forall (λ o, o = (IDLE_POLL, ExitBudget 0)) os).
Proof.
  split; [done|]. split; [apply reachable_Resp_uninstalled|]. split.
  - intros c st _.
    destruct (poll_device_uninstalled c st) as (st' & Hd & _ & Hl). eauto.
  - intros cl st _. unfold poll_round, handler_installed.
    destruct (poll_clients_total false
                (λ o, o = (IDLE_POLL, ExitBudget 0)) (λ _ _, True))
      with (cl := cl) (st := st) as (st1 & os & -> & HQ & _); [done..| |].
    + intros c st0.
      destruct (poll_device_uninstalled c st0) as (st' & Hd & _). eauto.
    + eauto.
Qed.

Lemma C9_response_never_started_witness :
  let st := mkP world0 [[]; []; []; [Recv 32 0 (replicate 32 0)]] [] in
  handled_schedule handler_installed st ∧
  ∃ st', poll_device handler_installed client_10_20 st =
         Some (st', (IDLE_POLL, ExitBudget 0)).
Proof.
  intros st.
  assert (H : handled_schedule handler_installed st).
  { unfold handled_schedule.
    repeat (apply Forall_cons; split; [|]); try apply Forall_nil_2;
      simpl; auto. }
  split; [exact H|].
  destruct C9_response_never_started as (_ & _ & Hdev & _).
  destruct (Hdev client_10_20 st H) as (st' & Hd & _). eauto.
Defined.

(** ** The device table *)

(** The lookup loop answers whether the pair of the mailbox is in use. *)
Lemma find_existing_spec cl nc :
  find_existing cl nc = 0 ∧ (byte_at nc 1, byte_at nc 2) ∉ keys cl ∨
  find_existing cl nc = 1 ∧ (byte_at nc 1, byte_at nc 2) ∈ keys cl.
Proof.
  induction cl as [|c cl IH]; simpl.
  - left. split; [done|]. unfold keys. simpl. apply not_elem_of_nil.
  - destruct (used_cases c) as [[-> Hc]|[-> Hc]]; simpl.
    + rewrite keys_cons_free by done. exact IH.
    + rewrite keys_cons_used by done.
      destruct (Z.eqb_spec (next_to_last c) (byte_at nc 1)) as [H1|H1];
        destruct (Z.eqb_spec (last c) (byte_at nc 2)) as [H2|H2]; simpl.
      * right. split; [done|]. rewrite H1, H2. apply elem_of_cons. by left.
      * destruct IH as [[-> Hn]|[-> Hy]]; [left|right]; (split; [done|]).
        -- rewrite not_elem_of_cons. split; [congruence|done].
        -- apply elem_of_cons. by right.
      * destruct IH as [[-> Hn]|[-> Hy]]; [left|right]; (split; [done|]).
        -- rewrite not_elem_of_cons. split; [congruence|done].
        -- apply elem_of_cons. by right.
      * destruct IH as [[-> Hn]|[-> Hy]]; [left|right]; (split; [done|]).
        -- rewrite not_elem_of_cons. split; [congruence|done].
        -- apply elem_of_cons. by right.
Qed.

(** The insertion loop: at most the first free slot changes. *)
Lemma insert_client_spec nc : ∀ cl dc cl' dc',
  insert_client cl nc dc = (cl', dc') →
  length cl' = length cl ∧
  (∀ k, k ∈ keys cl' → k = (byte_at nc 1, byte_at nc 2) ∨ k ∈ keys cl) ∧
  ((count_used cl' = count_used cl ∧ dc' = dc) ∨
   (count_used cl' = S (count_used cl) ∧ dc' = (dc + 1) mod 256)) ∧
  (∀ (i : nat) c, cl !! i = Some c → in_use c → cl' !! i = Some c).
Proof.
  induction cl as [|c cl IH]; intros dc cl' dc'; simpl.
  - intros [= <- <-]. repeat split; auto.
  - destruct (used_cases c) as [[-> Hc]|[-> Hc]].
    + intros [= <- <-].
      assert (Hnew : in_use (mkClient 1 (byte_at nc 1) (byte_at nc 2)
                               (memcpy (sn c) 0 nc 3 18))) by done.
      rewrite keys_cons_used, keys_cons_free by done.
      rewrite count_used_cons_used, count_used_cons_free by done.
      simpl. split; [done|]. split.
      { intros k [->|Hk]%elem_of_cons; auto. }
      split; [by right|].
      intros [|i] c0; simpl; [|done]. by intros [= <-] Hc0.
    + destruct (insert_client cl nc dc) as [cl1 dc1] eqn:Hi.
      intros [= <- <-].
      destruct (IH dc cl1 dc1 Hi) as (Hlen & Hk & Hcnt & Hkeep).
      rewrite !keys_cons_used, !count_used_cons_used by done.
      simpl. split; [by rewrite Hlen|]. split.
      { intros k [->|Hk']%elem_of_cons.
        - right. apply elem_of_cons. by left.
        - destruct (Hk k Hk'); [by left|right; apply elem_of_cons; by right]. }
      split.
      { destruct Hcnt as [[-> ->]|[-> ->]]; auto. }
      intros [|i] c0; simpl; [done|]. apply Hkeep.
Qed.

Lemma insert_client_NoDup nc : ∀ cl dc,
  (byte_at nc 1, byte_at nc 2) ∉ keys cl →
  NoDup (keys cl) → NoDup (keys (insert_client cl nc dc).1).
Proof.
  induction cl as [|c cl IH]; intros dc Hnew Hnd; simpl; [done|].
  destruct (used_cases c) as [[-> Hc]|[-> Hc]].
  - simpl. rewrite keys_cons_used by done. simpl.
    rewrite keys_cons_free in Hnew, Hnd by done.
    by apply NoDup_cons.
  - destruct (insert_client cl nc dc) as [cl1 dc1] eqn:Hi. simpl.
    rewrite keys_cons_used in Hnew, Hnd |- * by done.
    apply not_elem_of_cons in Hnew as [Hne Hnew].
    apply NoDup_cons in Hnd as [Hhd Hnd].
    apply NoDup_cons. split.
    + intros Hin.
      destruct (insert_client_spec nc cl dc cl1 dc1 Hi) as (_ & Hk & _).
      destruct (Hk _ Hin) as [Heq|Hold]; [congruence|done].
    + specialize (IH dc Hnew Hnd). by rewrite Hi in IH.
Qed.

Lemma keys_NoDup_no_duplicate cl :
  NoDup (keys cl) → no_duplicate_suffix cl.
Proof.
  unfold no_duplicate_suffix.
  assert (Hin : ∀ (l : list ClientIP_st) (j : nat) c,
            l !! j = Some c → in_use c →
            (next_to_last c, last c) ∈ keys l).
  { intros l j c Hj Hc. unfold keys.
    apply (list_elem_of_fmap_2 (λ c, (next_to_last c, last c))).
    apply list_elem_of_filter. split; [done|].
    by eapply list_elem_of_lookup_2. }
  induction cl as [|c cl IH]; intros Hnd i j ci cj Hi Hj Hci Hcj H1 H2;
    [done|].
  destruct (decide (in_use c)) as [Hc|Hc].
  - rewrite keys_cons_used in Hnd by done.
    apply NoDup_cons in Hnd as [Hhd Hnd].
    destruct i as [|i], j as [|j]; simpl in *.
    + done.
    + injection Hi as ->. destruct Hhd. rewrite H1, H2. by eapply Hin.
    + injection Hj as ->. destruct Hhd. rewrite <- H1, <- H2. by eapply Hin.
    + f_equal. by eapply IH.
  - rewrite keys_cons_free in Hnd by done.
    destruct i as [|i], j as [|j]; simpl in *.
    + done.
    + by injection Hi as ->.
    + by injection Hj as ->.
    + f_equal. by eapply IH.
Qed.

Lemma table_ok_init : table_ok Clients_init 0.
Proof. split; [done|]. split; [|done]. vm_compute. constructor. Qed.

(** One drain keeps the invariant and every record already in use. *)
Lemma discovery_drain_ok nc cl dc :
  table_ok cl dc →
  table_ok (discovery_drain nc cl dc).1.1 (discovery_drain nc cl dc).1.2 ∧
  ∀ (i : nat) c, cl !! i = Some c → in_use c →
    (discovery_drain nc cl dc).1.1 !! i = Some c.
Proof.
  intros (Hlen & Hnd & Hdc). unfold discovery_drain.
  destruct (negb (byte_at nc 0 =? 0)); [|done].
  destruct (find_existing_spec cl nc) as [[-> Hnew]|[-> Hold]];
    simpl; [|done].
  destruct (insert_client cl nc dc) as [cl' dc'] eqn:Hi. simpl.
  destruct (insert_client_spec nc cl dc cl' dc' Hi)
    as (Hlen' & _ & Hcnt & Hkeep).
  split; [|done].
  split; [congruence|]. split.
  - pose proof (insert_client_NoDup nc cl dc Hnew Hnd) as H.
    by rewrite Hi in H.
  - destruct Hcnt as [[-> ->]|[Hc ->]]; [done|].
    pose proof (count_used_le cl') as Hle.
    rewrite Hlen', Hlen in Hle. unfold MAX_CLIENTS in Hle.
    rewrite Hdc, Z.mod_small; lia.
Qed.

Lemma drain_all_ok ms : ∀ cl dc,
  table_ok cl dc →
  table_ok (drain_all ms cl dc).1 (drain_all ms cl dc).2 ∧
  ∀ (i : nat) c, cl !! i = Some c → in_use c →
    (drain_all ms cl dc).1 !! i = Some c.
Proof.
  induction ms as [|nc ms IH]; intros cl dc Hok; simpl; [done|].
  destruct (discovery_drain_ok nc cl dc Hok) as [Hok1 Hkeep1].
  destruct (discovery_drain nc cl dc) as [[cl1 dc1] nc1]. simpl in *.
  destruct (IH cl1 dc1 Hok1) as [Hok2 Hkeep2].
  split; [done|]. intros i c Hi Hc. apply Hkeep2; [|done]. by apply Hkeep1.
Qed.

Lemma drain_all_app ms1 ms2 : ∀ cl dc,
  drain_all (ms1 ++ ms2) cl dc =
  drain_all ms2 (drain_all ms1 cl dc).1 (drain_all ms1 cl dc).2.
Proof.
  induction ms1 as [|nc ms1 IH]; intros cl dc; simpl; [done|].
  destruct (discovery_drain nc cl dc) as [[cl1 dc1] nc1]. apply IH.
Qed.

(** The table of the poll process is the result of the drains it has run:
    the topology and poll phases do not write it. *)
Lemma poll_run_drains inst ub ks : ∀ l st l' st',
  poll_run inst ub ks l st = Some (l', st') →
  ∃ ms, (Clients l', DeviceCount l') =
        drain_all ms (Clients l) (DeviceCount l).
Proof.
  induction ks as [|k ks IH]; intros l st l' st'; simpl.
  - intros [= <- _]. by exists [].
  - destruct (poll_iteration inst ub k l st) as [[l1 st1]|] eqn:Hi; [|done].
    intros Hrun. destruct (IH _ _ _ _ Hrun) as [ms Hms].
    exists (NewClient (wsh (pw (sync inst st))) :: ms). simpl.
    unfold poll_iteration, drain_phase in Hi.
    destruct (discovery_drain _ (Clients l) (DeviceCount l))
      as [[cl1 dc1] nc1].
    unfold topology_phase in Hi. simpl in Hi.
    destruct (_ <? _) in Hi.
    + destruct (build_topology cl1 dc1 _ _ _) as [[t' payload] u].
      simpl in Hi. destruct (poll_round _ _ _) as [[st3 os]|]; [|done].
      injection Hi as <- _. exact Hms.
    + simpl in Hi. destruct (poll_round _ _ _) as [[st3 os]|]; [|done].
      injection Hi as <- _. exact Hms.
Qed.

(** C2: after any run of discovery drains from the initial table, no two
    in-use records carry the same (next_to_last, last) pair, the table
    holds [MAX_CLIENTS] = 64 slots and so at most 64 in-use records, and a
    record that is in use stays in its slot, unchanged, through every later
    drain. *)
Theorem C2_table_invariant ms :
  let cl := (drain_all ms Clients_init 0).1 in
  no_duplicate_suffix cl ∧
  length cl = MAX_CLIENTS ∧
  (count_used cl ≤ 64)%nat ∧
  ∀ ms' (i : nat) c, cl !! i = Some c → in_use c →
    (drain_all (ms ++ ms') Clients_init 0).1 !! i = Some c.
Proof.
  destruct (drain_all_ok ms Clients_init 0 table_ok_init)
    as [(Hlen & Hnd & Hdc) _].
  simpl. split; [by apply keys_NoDup_no_duplicate|]. split; [done|]. split.
  - pose proof (count_used_le (drain_all ms Clients_init 0).1) as H.
    by rewrite Hlen in H.
  - intros ms' i c Hi Hc. rewrite drain_all_app.
    by apply drain_all_ok.
Qed.

(** ** The topology message *)

Lemma fill_device_idemp c d :
  fill_device c (fill_device c d) = fill_device c d.
Proof. unfold fill_device. simpl. by rewrite memcpy_idemp. Qed.

(** The loop over [Clients] writes the area [dev + j] for the [j]-th in-use
    record and nothing else; [xmit_len] and [used] grow with every one. *)
Lemma fill_devices_spec cl : ∀ dev x u devs,
  ∃ devs',
    fill_devices cl dev x u devs =
      (devs', x + sizeof_Topology_Dev_st * Z.of_nat (count_used cl),
       u + Z.of_nat (count_used cl)) ∧
    length devs' = length devs ∧
    ∀ p : nat,
      devs' !! p =
      if decide (dev ≤ p)%nat
      then from_option (λ c, fill_device c <$> devs !! p) (devs !! p)
             (filter in_use cl !! (p - dev)%nat)
      else devs !! p.
Proof.
  unfold sizeof_Topology_Dev_st.
  induction cl as [|c cl IH]; intros dev x u devs; simpl.
  - exists devs. unfold count_used. simpl.
    rewrite Z.mul_0_r, !Z.add_0_r. split; [done|]. split; [done|].
    intros p. by case_decide.
  - destruct (used_cases c) as [[-> Hc]|[-> Hc]]; simpl;
      unfold sizeof_Topology_Dev_st.
    + rewrite count_used_cons_free, filter_cons_False by done. apply IH.
    + rewrite count_used_cons_used, filter_cons_True by done.
      destruct (IH (S dev) (x + 22) (u + 1) (alter (fill_device c) dev devs))
        as (devs' & -> & Hlen & Hlk).
      exists devs'. split; [f_equal; [f_equal|]; lia|].
      split; [by rewrite Hlen, length_alter|].
      intros p. rewrite Hlk.
      destruct (decide (p = dev)) as [->|Hne].
      * rewrite decide_False, decide_True by lia.
        rewrite Nat.sub_diag. simpl. apply list_lookup_alter_eq.
      * rewrite !list_lookup_alter_ne by done.
        destruct (decide (S dev ≤ p)%nat) as [Hle|Hgt].
        -- rewrite decide_True by lia.
           replace (p - dev)%nat with (S (p - S dev)) by lia. done.
        -- rewrite decide_False by lia. done.
Qed.

Lemma fill_devices_idemp cl dev x u devs :
  (fill_devices cl dev x u (fill_devices cl dev x u devs).1.1).1.1 =
  (fill_devices cl dev x u devs).1.1.
Proof.
  destruct (fill_devices_spec cl dev x u devs) as (d1 & -> & _ & H1).
  simpl.
  destruct (fill_devices_spec cl dev x u d1) as (d2 & -> & _ & H2).
  simpl. apply list_eq. intros p. rewrite H2, !H1.
  case_decide; [|done].
  destruct (filter in_use cl !! (p - dev)%nat) as [c|]; simpl; [|done].
  destruct (devs !! p); simpl; [|done]. by rewrite fill_device_idemp.
Qed.

Lemma length_bytes_of_msg h : length (bytes_of_msg h) = 12%nat.
Proof. done. Qed.

Lemma length_bytes_of_dev d :
  length (serial_number d) = 18%nat → length (bytes_of_dev d) = 22%nat.
Proof. intros H. unfold bytes_of_dev. simpl. rewrite length_app, H. done. Qed.

(** The first [22 * k] bytes of the device areas are the first [k] areas. *)
Lemma take_device_areas (k : nat) : ∀ devs,
  (k ≤ length devs)%nat →
  Forall (λ d, length (serial_number d) = 18%nat) (take k devs) →
  take (22 * k) (concat (bytes_of_dev <$> devs)) =
  concat (bytes_of_dev <$> take k devs).
Proof.
  induction k as [|k IH]; intros devs Hk Hsn.
  - by rewrite Nat.mul_0_r, !take_0.
  - destruct devs as [|d devs]; [simpl in Hk; lia|].
    change (take (S k) (d :: devs)) with (d :: take k devs) in *.
    apply Forall_cons in Hsn as [Hd Hsn].
    rewrite !fmap_cons.
    change (concat (bytes_of_dev d :: ?l)) with (bytes_of_dev d ++ concat l).
    replace (22 * S k)%nat with (length (bytes_of_dev d) + 22 * k)%nat
      by (rewrite length_bytes_of_dev by done; lia).
    rewrite take_app_add. f_equal. apply IH; [simpl in Hk; lia|done].
Qed.

(** The datagram of a topology broadcast: the header, then one descriptor
    for each in-use record, in table order. *)
Lemma build_topology_payload cl dc sec usec t :
  topo_wf t → length cl = MAX_CLIENTS →
  ∃ t' payload,
    build_topology cl dc sec usec t =
      (t', payload, Z.of_nat (count_used cl)) ∧
    thdr t' = fill_header dc sec usec ∧
    topo_wf t' ∧
    payload =
      bytes_of_msg (thdr t') ++
      concat (bytes_of_dev <$> take (count_used cl) (tdevs t')) ∧
    length (take (count_used cl) (tdevs t')) = count_used cl ∧
    (∀ (j : nat) c, filter in_use cl !! j = Some c →
       ∃ d, tdevs t !! j = Some d ∧ tdevs t' !! j = Some (fill_device c d)) ∧
    (∀ (p : nat) d', tdevs t' !! p = Some d' →
       (∃ c d, d' = fill_device c d) ∨ tdevs t !! p = Some d').
Proof.
  intros [Hlen Hsn] Hcl. unfold build_topology.
  destruct (fill_devices_spec cl 0 sizeof_Topology_Msg_st 0 (tdevs t))
    as (devs' & -> & Hlen' & Hlk).
  unfold sizeof_Topology_Msg_st, sizeof_Topology_Dev_st.
  rewrite Z.add_0_l. cbv zeta.
  pose proof (count_used_le cl) as Hcnt. rewrite Hcl in Hcnt.
  assert (Hsn' : Forall (λ d, length (serial_number d) = 18%nat) devs').
  { apply Forall_lookup. intros p d Hp. rewrite Hlk in Hp. simpl in Hp.
    rewrite Nat.sub_0_r in Hp.
    destruct (tdevs t !! p) as [d0|] eqn:Hd0.
    - pose proof (Forall_lookup_1 _ _ _ _ Hsn Hd0) as H0. simpl in H0.
      destruct (filter in_use cl !! p); simpl in Hp; injection Hp as <-;
        [|done].
      simpl. by rewrite length_memcpy.
    - by destruct (filter in_use cl !! p). }
  eexists _, _. split; [reflexivity|]. cbn [thdr tdevs].
  split; [done|]. split; [split; [simpl; congruence|done]|].
  split; [|split; [|split]].
  - replace (Z.to_nat (12 + 22 * Z.of_nat (count_used cl)))
      with (length (bytes_of_msg (fill_header dc sec usec))
            + 22 * count_used cl)%nat
      by (rewrite length_bytes_of_msg; lia).
    unfold bytes_of_topo. cbn [thdr tdevs]. rewrite take_app_add. f_equal.
    apply take_device_areas; [lia|]. by apply Forall_take.
  - rewrite length_take. lia.
  - intros j c Hj. rewrite Hlk. simpl. rewrite Nat.sub_0_r, Hj. simpl.
    destruct (lookup_lt_is_Some_2 (tdevs t) j) as [d Hd].
    + apply lookup_lt_Some in Hj. unfold count_used in Hcnt. lia.
    + exists d. by rewrite Hd.
  - intros p d' Hp. rewrite Hlk in Hp. simpl in Hp.
    destruct (filter in_use cl !! (p - 0)%nat) as [c|]; simpl in Hp;
      [|by right].
    destruct (tdevs t !! p) as [d|]; simpl in Hp; [|done].
    injection Hp as <-. left. eauto.
Qed.


(** Byte [i] of descriptor [j] in a run of serialised descriptors. *)
Lemma lookup_device_area (i : nat) : ∀ ds (j : nat) d,
  Forall (λ d, length (serial_number d) = 18%nat) ds →
  ds !! j = Some d → (i < 22)%nat →
  concat (bytes_of_dev <$> ds) !! (22 * j + i)%nat = bytes_of_dev d !! i.
Proof.
  induction ds as [|d0 ds IH]; intros j d Hsn Hj Hi; [done|].
  apply Forall_cons in Hsn as [H0 Hsn].
  rewrite fmap_cons.
  change (concat (bytes_of_dev d0 :: ?l)) with (bytes_of_dev d0 ++ concat l).
  destruct j as [|j]; simpl in Hj.
  - injection Hj as ->. rewrite Nat.mul_0_r, Nat.add_0_l.
    apply lookup_app_l. rewrite length_bytes_of_dev by done. lia.
  - rewrite lookup_app_r by (rewrite length_bytes_of_dev by done; lia).
    rewrite length_bytes_of_dev by done.
    replace (22 * S j + i - 22)%nat with (22 * j + i)%nat by lia.
    by apply IH.
Qed.

Lemma length_device_areas ds :
  Forall (λ d, length (serial_number d) = 18%nat) ds →
  length (concat (bytes_of_dev <$> ds)) = (22 * length ds)%nat.
Proof.
  induction 1 as [|d ds Hd _ IH]; [done|].
  rewrite fmap_cons.
  change (concat (bytes_of_dev d :: ?l)) with (bytes_of_dev d ++ concat l).
  rewrite length_app, IH, length_bytes_of_dev by done. simpl. lia.
Qed.

(** C7: two builds in a row from the same table and counter give datagrams
    of the same length that agree on every byte after the eight timestamp
    bytes (offsets 0..7). *)
Theorem C7_topology_idempotent cl dc sec1 usec1 sec2 usec2 t :
  let b1 := build_topology cl dc sec1 usec1 t in
  let b2 := build_topology cl dc sec2 usec2 b1.1.1 in
  length b1.1.2 = length b2.1.2 ∧ drop 8 b1.1.2 = drop 8 b2.1.2.
Proof.
  unfold build_topology.
  pose proof (fill_devices_idemp cl 0 sizeof_Topology_Msg_st 0 (tdevs t))
    as Hid.
  destruct (fill_devices_spec cl 0 sizeof_Topology_Msg_st 0 (tdevs t))
    as (d1 & H1 & _). rewrite H1 in Hid |- *. cbn [fst snd tdevs] in Hid |- *.
  destruct (fill_devices_spec cl 0 sizeof_Topology_Msg_st 0 d1)
    as (d2 & H2 & _). rewrite H2 in Hid |- *. cbn [fst snd] in Hid |- *.
  subst d2. unfold bytes_of_topo. cbn [thdr tdevs].
  set (n := Z.to_nat _). set (R := concat _).
  assert (Hn : (12 ≤ n)%nat).
  { subst n. unfold sizeof_Topology_Msg_st, sizeof_Topology_Dev_st. lia. }
  assert (Htake : ∀ h, take n (bytes_of_msg h ++ R) =
                       bytes_of_msg h ++ take (n - 12) R).
  { intros h. rewrite take_app, length_bytes_of_msg. f_equal.
    apply take_ge. by rewrite length_bytes_of_msg. }
  rewrite !Htake. split.
  - by rewrite !length_app, !length_bytes_of_msg.
  - done.
Qed.

(** C8: after any run of drains from the initial table, [DeviceCount] is
    the number of in-use records; a topology message built then carries that
    number at offset 10 ([device_count]) and is made of the 12-byte header
    followed by exactly that many 22-byte descriptors. *)
Theorem C8_device_count ms sec usec t :
  topo_wf t →
  let r := drain_all ms Clients_init 0 in
  let b := build_topology r.1 r.2 sec usec t in
  r.2 = Z.of_nat (count_used r.1) ∧
  b.2 = r.2 ∧
  b.1.2 !! 10%nat = Some r.2 ∧
  Z.of_nat (length b.1.2) =
    sizeof_Topology_Msg_st + sizeof_Topology_Dev_st * r.2 ∧
  ∃ ds, b.1.2 = bytes_of_msg (thdr b.1.1) ++ concat (bytes_of_dev <$> ds) ∧
        Z.of_nat (length ds) = device_count (thdr b.1.1).
Proof.
  intros Hwf r b.
  destruct (drain_all_ok ms Clients_init 0 table_ok_init)
    as [(Hlen & _ & Hdc) _]. fold r in Hlen, Hdc.
  destruct (build_topology_payload r.1 r.2 sec usec t Hwf Hlen)
    as (t' & payload & Hb & Hh & [_ Hsn'] & Hp & Hk & _).
  subst b. rewrite Hb. cbn [fst snd].
  split; [done|]. split; [done|]. split; [|split].
  - rewrite Hp, Hh. done.
  - rewrite Hp, length_app, length_bytes_of_msg.
    rewrite length_device_areas by (by apply Forall_take).
    rewrite Hk, Hdc.
    unfold sizeof_Topology_Msg_st, sizeof_Topology_Dev_st. lia.
  - exists (take (count_used r.1) (tdevs t')).
    split; [done|]. rewrite Hk, Hh. simpl. done.
Qed.

Lemma topo_wf_init : topo_wf topo_init.
Proof.
  split; [done|]. unfold topo_init. cbn [tdevs].
  apply Forall_replicate. done.
Qed.

Lemma C8_device_count_witness :
  topo_wf topo_init ∧
  let r := drain_all [[1; 10; 20] ++ sn0001] Clients_init 0 in
  r.2 = 1 ∧ (build_topology r.1 r.2 0 0 topo_init).1.2 !! 10%nat = Some 1.
Proof.
  split; [exact topo_wf_init|].
  destruct (C8_device_count [[1; 10; 20] ++ sn0001] 0 0 topo_init
              topo_wf_init) as (_ & _ & H & _).
  split; [reflexivity|exact H].
Defined.

(** C10: every descriptor of a topology datagram has [duplicate_flag] 0 (the
    byte at offset 2 of each 22-byte descriptor); a build writes no other
    value into the transmit buffer, so a buffer whose flags are all 0, as
    [calloc] returns it, keeps them 0. *)
Theorem C10_duplicate_flag_zero cl dc sec usec t :
  topo_wf t → length cl = MAX_CLIENTS →
  let b := build_topology cl dc sec usec t in
  (∃ ds, b.1.2 = bytes_of_msg (thdr b.1.1) ++ concat (bytes_of_dev <$> ds) ∧
         Z.of_nat (length ds) = b.2 ∧
         Forall (λ d, duplicate_flag d = 0) ds) ∧
  (∀ j : nat, Z.of_nat j < b.2 →
     b.1.2 !! (12 + (22 * j + 2))%nat = Some 0) ∧
  (Forall (λ d, duplicate_flag d = 0) (tdevs t) →
   Forall (λ d, duplicate_flag d = 0) (tdevs b.1.1)).
Proof.
  intros Hwf Hcl b.
  destruct (build_topology_payload cl dc sec usec t Hwf Hcl)
    as (t' & payload & Hb & Hh & [_ Hsn'] & Hp & Hk & Hused & Hall).
  subst b. rewrite Hb. cbn [fst snd].
  set (ds := take (count_used cl) (tdevs t')) in *.
  assert (Hflags : Forall (λ d, duplicate_flag d = 0) ds).
  { apply Forall_lookup. intros j d Hj.
    assert (Hjk : (j < count_used cl)%nat).
    { apply lookup_lt_Some in Hj. lia. }
    destruct (lookup_lt_is_Some_2 (filter in_use cl) j) as [c Hc]; [done|].
    destruct (Hused j c Hc) as (d0 & _ & Hd0).
    subst ds. rewrite lookup_take_lt in Hj by done.
    rewrite Hd0 in Hj. by injection Hj as <-. }
  split; [|split].
  - exists ds. by rewrite Hk.
  - intros j Hj. rewrite Hp.
    rewrite lookup_app_r by (rewrite length_bytes_of_msg; lia).
    rewrite length_bytes_of_msg.
    replace (12 + (22 * j + 2) - 12)%nat with (22 * j + 2)%nat by lia.
    destruct (lookup_lt_is_Some_2 ds j) as [d Hd]; [lia|].
    rewrite (lookup_device_area 2 ds j d); [|by apply Forall_take|done|lia].
    simpl. f_equal. by apply (Forall_lookup_1 _ _ _ _ Hflags Hd).
  - intros Hzero. apply Forall_lookup. intros p d' Hp'.
    destruct (Hall p d' Hp') as [(c & d & ->)|Hold]; [done|].
    by apply (Forall_lookup_1 _ _ _ _ Hzero Hold).
Qed.

Lemma C10_duplicate_flag_zero_witness :
  let cl := client_10_20 :: tail Clients_init in
  (topo_wf topo_init ∧ length cl = MAX_CLIENTS) ∧
  (build_topology cl 1 0 0 topo_init).1.2 !! 14%nat = Some 0.
Proof.
  split; [split; [exact topo_wf_init|reflexivity]|].
  destruct (C10_duplicate_flag_zero (client_10_20 :: tail Clients_init) 1 0 0
              topo_init topo_wf_init eq_refl) as (_ & H & _).
  exact (H 0%nat eq_refl).
Defined.

(** * Further properties *)

(** ** Discovery drain *)

Lemma insert_client_full nc : ∀ cl dc,
  Forall in_use cl → insert_client cl nc dc = (cl, dc).
Proof.
  induction cl as [|c cl IH]; intros dc Hall; simpl; [done|].
  apply Forall_cons in Hall as [Hc Hall].
  destruct (used_cases c) as [[-> Hn]|[-> _]]; [done|].
  by rewrite IH.
Qed.

Lemma count_used_full cl :
  count_used cl = length cl → Forall in_use cl.
Proof.
  induction cl as [|c cl IH]; intros Hcnt; [done|].
  destruct (decide (in_use c)) as [Hc|Hc].
  - rewrite count_used_cons_used in Hcnt by done. simpl in Hcnt.
    apply Forall_cons. split; [done|]. apply IH. lia.
  - rewrite count_used_cons_free in Hcnt by done. simpl in Hcnt.
    pose proof (count_used_le cl). lia.
Qed.

Lemma insert_client_adds nc : ∀ cl dc,
  (count_used cl < length cl)%nat →
  (byte_at nc 1, byte_at nc 2) ∈ keys (insert_client cl nc dc).1.
Proof.
  induction cl as [|c cl IH]; intros dc Hfree; simpl in *; [lia|].
  destruct (used_cases c) as [[-> Hc]|[-> Hc]].
  - simpl. rewrite keys_cons_used by done. apply elem_of_cons. by left.
  - rewrite count_used_cons_used in Hfree by done.
    specialize (IH dc ltac:(lia)).
    destruct (insert_client cl nc dc) as [cl1 dc1]. simpl in *.
    rewrite keys_cons_used by done. apply elem_of_cons. by right.
Qed.

(** X1: once a pending announce has been drained into a table with a free
    slot, the lookup loop finds its IP-suffix pair. *)
Theorem X1_drain_then_found nc cl dc :
  byte_at nc 0 ≠ 0 →
  (count_used cl < length cl)%nat →
  find_existing (discovery_drain nc cl dc).1.1 nc = 1.
Proof.
  intros Hp Hfree. unfold discovery_drain.
  destruct (Z.eqb_spec (byte_at nc 0) 0) as [|_]; [done|]. simpl.
  destruct (find_existing_spec cl nc) as [[H0 Hnew]|[H1 Hold]].
  - rewrite H0. simpl.
    pose proof (insert_client_adds nc cl dc Hfree) as Hin.
    destruct (insert_client cl nc dc) as [cl1 dc1]. simpl in *.
    destruct (find_existing_spec cl1 nc) as [[_ Hn]|[-> _]]; done.
  - rewrite H1. simpl. exact H1.
Qed.

Lemma X1_drain_then_found_witness :
  (byte_at ([1; 10; 20] ++ sn0001) 0 ≠ 0 ∧
   (count_used Clients_init < length Clients_init)%nat) ∧
  find_existing
    (discovery_drain ([1; 10; 20] ++ sn0001) Clients_init 0).1.1
    ([1; 10; 20] ++ sn0001) = 1.
Proof.
  assert (H1 : byte_at ([1; 10; 20] ++ sn0001) 0 ≠ 0) by discriminate.
  assert (H2 : (count_used Clients_init < length Clients_init)%nat).
  { vm_compute. lia. }
  split; [split; [exact H1|exact H2]|].
  exact (X1_drain_then_found _ Clients_init 0 H1 H2).
Defined.

(** X2: draining the same mailbox content a second time changes nothing:
    neither the table nor [DeviceCount], whether the first drain inserted
    the client, found it, or dropped it on a full table. *)
Theorem X2_drain_idempotent nc cl dc :
  let r := discovery_drain nc cl dc in
  discovery_drain nc r.1.1 r.1.2 = r.
Proof.
  unfold discovery_drain.
  destruct (negb (byte_at nc 0 =? 0)) eqn:Hp; simpl; [|done].
  destruct (find_existing_spec cl nc) as [[H0 Hnew]|[H1 Hold]].
  - rewrite H0. simpl.
    destruct (decide (count_used cl < length cl)%nat) as [Hfree|Hfull].
    + pose proof (insert_client_adds nc cl dc Hfree) as Hin.
      destruct (insert_client cl nc dc) as [cl1 dc1]. simpl in *.
      destruct (find_existing_spec cl1 nc) as [[_ Hn]|[-> _]]; done.
    + assert (Hall : Forall in_use cl).
      { apply count_used_full. pose proof (count_used_le cl). lia. }
      rewrite (insert_client_full nc cl dc Hall). simpl.
      rewrite H0. simpl. by rewrite (insert_client_full nc cl dc Hall).
  - rewrite H1. simpl. by rewrite H1.
Qed.

(** X3: on a full table a pending announce changes neither the table nor
    [DeviceCount]; only the pending flag of the mailbox is cleared. *)
Theorem X3_drain_full_table nc cl dc :
  Forall in_use cl →
  byte_at nc 0 ≠ 0 →
  discovery_drain nc cl dc = (cl, dc, <[0%nat := 0]> nc).
Proof.
  intros Hall Hp. unfold discovery_drain.
  destruct (Z.eqb_spec (byte_at nc 0) 0) as [|_]; [done|]. simpl.
  destruct (find_existing cl nc =? 0); [|done].
  by rewrite insert_client_full.
Qed.

Lemma X3_drain_full_table_witness :
  (Forall in_use (replicate MAX_CLIENTS client_10_20) ∧
   byte_at ([1; 10; 21] ++ sn0001) 0 ≠ 0) ∧
  discovery_drain ([1; 10; 21] ++ sn0001)
    (replicate MAX_CLIENTS client_10_20) 64 =
  (replicate MAX_CLIENTS client_10_20, 64, [0; 10; 21] ++ sn0001).
Proof.
  assert (H1 : Forall in_use (replicate MAX_CLIENTS client_10_20)).
  { apply Forall_replicate. discriminate. }
  assert (H2 : byte_at ([1; 10; 21] ++ sn0001) 0 ≠ 0) by discriminate.
  split; [split; [exact H1|exact H2]|].
  exact (X3_drain_full_table _ _ 64 H1 H2).
Defined.

Lemma keys_app cl1 cl2 : keys (cl1 ++ cl2) = keys cl1 ++ keys cl2.
Proof. unfold keys. by rewrite filter_app, fmap_app. Qed.

Lemma keys_free fs : Forall (λ c, ¬ in_use c) fs → keys fs = [].
Proof.
  induction 1 as [|c fs Hc _ IH]; [done|].
  by rewrite keys_cons_free.
Qed.

Lemma insert_client_app_used nc us : ∀ fs dc,
  Forall in_use us →
  insert_client (us ++ fs) nc dc =
  (us ++ (insert_client fs nc dc).1, (insert_client fs nc dc).2).
Proof.
  induction us as [|c us IH]; intros fs dc Hus; simpl.
  - by destruct (insert_client fs nc dc).
  - apply Forall_cons in Hus as [Hc Hus].
    destruct (used_cases c) as [[-> Hn]|[-> _]]; [done|].
    rewrite IH by done. done.
Qed.

Lemma packed_init : packed Clients_init.
Proof.
  exists [], Clients_init. split; [done|]. split; [done|].
  apply Forall_replicate. unfold in_use. simpl. tauto.
Qed.

Lemma discovery_drain_packed nc cl dc :
  packed cl →
  packed (discovery_drain nc cl dc).1.1 ∧
  (keys (discovery_drain nc cl dc).1.1 = keys cl ∨
   keys (discovery_drain nc cl dc).1.1 =
     keys cl ++ [(byte_at nc 1, byte_at nc 2)]).
Proof.
  intros (us & fs & -> & Hus & Hfs). unfold discovery_drain.
  destruct (negb (byte_at nc 0 =? 0)); simpl;
    [|split; [by exists us, fs|by left]].
  destruct (find_existing (us ++ fs) nc =? 0); simpl;
    [|split; [by exists us, fs|by left]].
  rewrite insert_client_app_used by done. simpl.
  destruct Hfs as [|c fs Hc Hfs]; simpl.
  - split; [by exists us, []|by left].
  - destruct (used_cases c) as [[-> _]|[-> Hn]]; [|done]. simpl.
    split.
    + exists (us ++ [mkClient 1 (byte_at nc 1) (byte_at nc 2)
                       (memcpy (sn c) 0 nc 3 18)]), fs.
      split; [by rewrite <- app_assoc|]. split; [|done].
      apply Forall_app. split; [done|]. by apply Forall_singleton.
    + right. rewrite !keys_app, keys_cons_used by done.
      rewrite keys_cons_free by done. rewrite (keys_free fs) by done.
      by rewrite app_nil_r.
Qed.

Lemma drain_all_packed ms : ∀ cl dc,
  packed cl → packed (drain_all ms cl dc).1.
Proof.
  induction ms as [|nc ms IH]; intros cl dc Hp; simpl; [done|].
  destruct (discovery_drain_packed nc cl dc Hp) as [Hp1 _].
  destruct (discovery_drain nc cl dc) as [[cl1 dc1] nc1]. by apply IH.
Qed.

(** X4: the table fills from slot 0 upwards: after any run of drains the
    in-use records are a prefix of the table, and one more drain either
    leaves the list of in-use IP-suffix pairs as it is or appends the new
    pair at its end, so table order is discovery order. *)
Theorem X4_discovery_order ms nc :
  let r := drain_all ms Clients_init 0 in
  packed r.1 ∧
  (keys (discovery_drain nc r.1 r.2).1.1 = keys r.1 ∨
   keys (discovery_drain nc r.1 r.2).1.1 =
     keys r.1 ++ [(byte_at nc 1, byte_at nc 2)]).
Proof.
  intros r.
  assert (Hp : packed r.1) by apply drain_all_packed, packed_init.
  split; [exact Hp|]. by apply discovery_drain_packed.
Qed.

Lemma memcpy_whole dst src soff n :
  length dst = n → memcpy dst 0 src soff n = byte_at src <$> seq soff n.
Proof.
  intros Hlen. apply list_eq. intros p.
  rewrite memcpy_lookup, list_lookup_fmap.
  destruct (decide (p < n)%nat) as [Hp|Hp].
  - rewrite decide_True by lia.
    destruct (lookup_lt_is_Some_2 dst p) as [x ->]; [lia|].
    rewrite lookup_seq_lt by done. simpl. do 2 f_equal. lia.
  - rewrite decide_False by lia.
    rewrite lookup_ge_None_2 by lia.
    by rewrite lookup_seq_ge by lia.
Qed.

Lemma insert_client_record nc : ∀ cl dc,
  (count_used cl < length cl)%nat →
  Forall (λ c, length (sn c) = 18%nat) cl →
  mkClient 1 (byte_at nc 1) (byte_at nc 2) (byte_at nc <$> seq 3 18)
    ∈ (insert_client cl nc dc).1.
Proof.
  induction cl as [|c cl IH]; intros dc Hfree Hsn; simpl in *; [lia|].
  apply Forall_cons in Hsn as [Hc18 Hsn].
  destruct (used_cases c) as [[-> Hc]|[-> Hc]].
  - simpl. rewrite memcpy_whole by done. apply elem_of_cons. by left.
  - rewrite count_used_cons_used in Hfree by done.
    specialize (IH dc ltac:(lia) Hsn).
    destruct (insert_client cl nc dc) as [cl1 dc1]. simpl in *.
    apply elem_of_cons. by right.
Qed.

Lemma drain_announce_record nc cl dc a b :
  byte_at nc 0 = 1 → byte_at nc 1 = a → byte_at nc 2 = b →
  (count_used cl < length cl)%nat →
  Forall (λ c, length (sn c) = 18%nat) cl →
  (a, b) ∉ keys cl →
  mkClient 1 a b (byte_at nc <$> seq 3 18) ∈ (discovery_drain nc cl dc).1.1.
Proof.
  intros H0 H1 H2 Hfree Hsn Hnew.
  pose proof (insert_client_record nc cl dc Hfree Hsn) as Hin.
  rewrite H1, H2 in Hin.
  unfold discovery_drain. rewrite H0. cbn [Z.eqb negb].
  destruct (find_existing_spec cl nc) as [[-> _]|[_ Hold]].
  - cbn [Z.eqb]. destruct (insert_client cl nc dc) as [cl1 dc1]. exact Hin.
  - rewrite H1, H2 in Hold. done.
Qed.

Lemma announce_flagged_view buffer old :
  length old = 21%nat →
  announce_view old buffer (announce_flagged buffer old) ∧
  byte_at (announce_flagged buffer old) <$> seq 3 18 =
    byte_at old <$> seq 3 18.
Proof.
  intros Hlen.
  do 21 (destruct old as [|? old]; [discriminate Hlen|]).
  destruct old; [|discriminate Hlen].
  split; [|reflexivity].
  unfold announce_view. split; [reflexivity|]. split; [reflexivity|].
  split; [reflexivity|]. split; [reflexivity|].
  intros i Hi. right.
  do 18 (destruct i as [|i]; [reflexivity|]). lia.
Qed.

Lemma announce_copied_view buffer old :
  length old = 21%nat →
  announce_view old buffer
    (memcpy (announce_flagged buffer old) 3 buffer 32 18) ∧
  byte_at (memcpy (announce_flagged buffer old) 3 buffer 32 18)
    <$> seq 3 18 = byte_at buffer <$> seq 32 18.
Proof.
  intros Hlen. unfold announce_flagged.
  rewrite announce_check_mailbox by done.
  split; [|reflexivity].
  unfold announce_view. split; [reflexivity|]. split; [reflexivity|].
  split; [reflexivity|]. split; [reflexivity|].
  intros i Hi. left.
  do 18 (destruct i as [|i]; [reflexivity|]). lia.
Qed.

(** X5: from announce frame to table record, at every point of the
    hand-over.  The capture process sets the pending flag (line 366) before
    it copies the serial number (line 367) and nothing makes the poll
    process wait for the copy, so the mailbox it drains has the flag and
    the pair of the frame, and each serial-number byte either of the frame
    or still of the previous content.  Drained into a table with a free
    slot that does not know the pair, such a mailbox yields an in-use
    record with [next_to_last = buffer[30]], [last = buffer[29]] and, as
    serial number, the bytes 3..20 found in the mailbox: [buffer[32..49]]
    when the drain follows the copy, the bytes of the previous content when
    it falls between lines 366 and 367. *)
Theorem X5_announce_to_record pkttype buffer w cl dc :
  length (NewClient (wsh w)) = 21%nat →
  byte_at (NewClient (wsh w)) 0 = 0 →
  byte_at buffer 28 = 0x55 →
  (count_used cl < length cl)%nat →
  Forall (λ c, length (sn c) = 18%nat) cl →
  (byte_at buffer 30, byte_at buffer 29) ∉ keys cl →
  let old := NewClient (wsh w) in
  let flagged := announce_flagged buffer old in
  let copied := NewClient (wsh (filter_iteration 60 pkttype buffer w).1) in
  copied = memcpy flagged 3 buffer 32 18 ∧
  announce_view old buffer flagged ∧
  announce_view old buffer copied ∧
  (∀ nc, announce_view old buffer nc →
     mkClient 1 (byte_at buffer 30) (byte_at buffer 29)
              (byte_at nc <$> seq 3 18)
       ∈ (discovery_drain nc cl dc).1.1) ∧
  byte_at copied <$> seq 3 18 = byte_at buffer <$> seq 32 18 ∧
  byte_at flagged <$> seq 3 18 = byte_at old <$> seq 3 18.
Proof.
  intros Hlen Hpend Hm Hfree Hsn Hnew old flagged copied.
  assert (Hc : copied = memcpy flagged 3 buffer 32 18).
  { subst copied flagged old. rewrite filter_iteration_NewClient by done.
    unfold announce_check. by rewrite Hm, Hpend. }
  destruct (announce_flagged_view buffer old Hlen) as [Hvf Hsf].
  destruct (announce_copied_view buffer old Hlen) as [Hvc Hsc].
  fold flagged in Hvf, Hsf, Hvc, Hsc. rewrite <- Hc in Hvc, Hsc.
  split; [exact Hc|]. split; [exact Hvf|]. split; [exact Hvc|].
  split; [|split; [exact Hsc|exact Hsf]].
  intros nc (_ & H0 & H1 & H2 & _).
  by apply drain_announce_record.
Qed.

Lemma sn_length_init : Forall (λ c, length (sn c) = 18%nat) Clients_init.
Proof. apply Forall_replicate. done. Qed.

Lemma X5_announce_to_record_witness :
  (length (NewClient (wsh world0)) = 21%nat ∧
   byte_at (NewClient (wsh world0)) 0 = 0 ∧
   byte_at (announce_frame 10 20 sn0001) 28 = 0x55 ∧
   (count_used Clients_init < length Clients_init)%nat ∧
   Forall (λ c, length (sn c) = 18%nat) Clients_init ∧
   (10, 20) ∉ keys Clients_init) ∧
  client_10_20 ∈
    (discovery_drain
       (NewClient (wsh (filter_iteration 60 0 (announce_frame 10 20 sn0001)
                          world0).1))
       Clients_init 0).1.1 ∧
  mkClient 1 10 20 (replicate 18 0) ∈
    (discovery_drain
       (announce_flagged (announce_frame 10 20 sn0001)
          (NewClient (wsh world0)))
       Clients_init 0).1.1.
Proof.
  assert (H4 : (count_used Clients_init < length Clients_init)%nat).
  { vm_compute. lia. }
  assert (H6 : (10, 20) ∉ keys Clients_init).
  { vm_compute. apply not_elem_of_nil. }
  split; [repeat split; done || exact sn_length_init|].
  destruct (X5_announce_to_record 0 (announce_frame 10 20 sn0001) world0
              Clients_init 0 eq_refl eq_refl eq_refl H4 sn_length_init H6)
    as (_ & Hvf & Hvc & Hrec & _).
  split.
  - exact (Hrec _ Hvc).
  - exact (Hrec _ Hvf).
Defined.

(** ** Topology message: encoding *)

Lemma land_255 x : Z.land x 255 = x mod 256.
Proof. change 255 with (Z.ones 8). by rewrite Z.land_ones. Qed.

Lemma land_255_range x : 0 ≤ Z.land x 0x00ff ≤ 255.
Proof. rewrite land_255. pose proof (Z.mod_pos_bound x 256). lia. Qed.

Lemma le32_encode x :
  le32 (Z.land x 0x00ff) (Z.land (Z.shiftr x 8) 0x00ff)
       (Z.land (Z.shiftr x 16) 0x00ff) (Z.land (Z.shiftr x 24) 0x00ff) =
  x mod 2 ^ 32.
Proof.
  rewrite !land_255, !Z.shiftr_div_pow2 by lia.
  change (2 ^ 16) with (256 * 256). change (2 ^ 24) with (256 * (256 * 256)).
  change (2 ^ 8) with 256.
  rewrite <- !Z.div_div by lia.
  set (q1 := x / 256). set (q2 := q1 / 256). set (q3 := q2 / 256).
  pose proof (Z.div_mod x 256 ltac:(lia)) as E1. fold q1 in E1.
  pose proof (Z.div_mod q1 256 ltac:(lia)) as E2. fold q2 in E2.
  pose proof (Z.div_mod q2 256 ltac:(lia)) as E3. fold q3 in E3.
  pose proof (Z.div_mod q3 256 ltac:(lia)) as E4.
  pose proof (Z.mod_pos_bound x 256 ltac:(lia)).
  pose proof (Z.mod_pos_bound q1 256 ltac:(lia)).
  pose proof (Z.mod_pos_bound q2 256 ltac:(lia)).
  pose proof (Z.mod_pos_bound q3 256 ltac:(lia)).
  unfold le32. apply Z.mod_unique with (q := q3 / 256); [left|]; lia.
Qed.

(** X6: the header of a topology message carries [tv_sec] modulo 2^32 and
    [tv_usec * 1000] modulo 2^32 as four bytes each, least significant
    first (the nanoseconds exactly, for [tv_usec] below one million), the
    port 1883 as two bytes least significant first, [DeviceCount] and the
    version 1. *)
Theorem X6_header_encoding dc sec usec :
  let h := fill_header dc sec usec in
  le32 (secs_lsbyte h) (secs_3rd h) (secs_2nd h) (secs_msbyte h)
    = sec mod 2 ^ 32 ∧
  le32 (nano_lsbyte h) (nano_3rd h) (nano_2nd h) (nano_msbyte h)
    = (usec * 1000) mod 2 ^ 32 ∧
  (0 ≤ usec < 1000000 →
   le32 (nano_lsbyte h) (nano_3rd h) (nano_2nd h) (nano_msbyte h)
     = usec * 1000) ∧
  mqtt_port_lsb h + 256 * mqtt_port_msb h = OUR_MQTT_PORT ∧
  device_count h = dc ∧ core_version h = 1 ∧
  Forall (λ b, 0 ≤ b ≤ 255) (take 10 (bytes_of_msg h)).
Proof.
  intros h. subst h. unfold fill_header. cbn [secs_lsbyte secs_3rd secs_2nd
    secs_msbyte nano_lsbyte nano_3rd nano_2nd nano_msbyte mqtt_port_lsb
    mqtt_port_msb device_count core_version bytes_of_msg].
  rewrite le32_encode.
  assert (Hn : ∀ m, le32 (Z.land m 0x00ff) (Z.land (Z.shiftr m 8) 0x00ff)
                 (Z.land (Z.shiftr m 16) 0x00ff)
                 (Z.land (Z.shiftr m 24) 0x00ff) = m mod 2 ^ 32)
    by apply le32_encode.
  rewrite Hn. rewrite Z.mod_mod by lia.
  split; [done|]. split; [done|]. split.
  { intros Hu. apply Z.mod_small. lia. }
  split; [done|]. split; [done|]. split; [done|].
  cbn [take].
  repeat (apply Forall_cons; split; [apply land_255_range|]).
  apply Forall_nil_2.
Qed.

Lemma byte_at_seq (l : list Z) : byte_at l <$> seq 0 (length l) = l.
Proof.
  apply list_eq. intros p. rewrite list_lookup_fmap.
  destruct (decide (p < length l)%nat) as [Hp|Hp].
  - rewrite lookup_seq_lt by done. simpl.
    destruct (lookup_lt_is_Some_2 l p Hp) as [x Hx].
    unfold byte_at. by rewrite Hx.
  - rewrite lookup_seq_ge by lia. simpl.
    by rewrite lookup_ge_None_2 by lia.
Qed.

Lemma bytes_of_filled_dev c d :
  length (sn c) = 18%nat → length (serial_number d) = 18%nat →
  reserved1 d = 0 →
  bytes_of_dev (fill_device c d) = descriptor c.
Proof.
  intros Hc Hd Hr. unfold bytes_of_dev, fill_device, descriptor.
  cbn [ip_lsb ip_msb duplicate_flag serial_number reserved1].
  rewrite memcpy_whole by done. rewrite <- Hc at 1.
  by rewrite byte_at_seq, Hr.
Qed.

(** X7: built in a buffer whose reserved bytes are 0, a topology datagram
    is the header followed by one descriptor for each in-use record, in
    table order: last IP byte, next-to-last IP byte, 0, the 18 bytes of the
    serial number, 0. *)
Theorem X7_topology_payload cl dc sec usec t :
  topo_wf t →
  Forall (λ d, reserved1 d = 0) (tdevs t) →
  length cl = MAX_CLIENTS →
  Forall (λ c, length (sn c) = 18%nat) cl →
  (build_topology cl dc sec usec t).1.2 =
  bytes_of_msg (fill_header dc sec usec)
    ++ concat (descriptor <$> filter in_use cl).
Proof.
  intros Hwf Hres Hcl Hsn.
  destruct (build_topology_payload cl dc sec usec t Hwf Hcl)
    as (t' & payload & -> & Hh & _ & -> & Hk & Hused & _).
  cbn [fst snd]. rewrite Hh. do 2 f_equal.
  destruct Hwf as [_ Hsn18].
  apply list_eq. intros p. rewrite !list_lookup_fmap.
  destruct (decide (p < count_used cl)%nat) as [Hp|Hp].
  - rewrite lookup_take_lt by done.
    destruct (lookup_lt_is_Some_2 (filter in_use cl) p Hp) as [c Hc].
    destruct (Hused p c Hc) as (d & Hd & ->). rewrite Hc. simpl. f_equal.
    apply bytes_of_filled_dev.
    + assert (Hin : c ∈ cl).
      { apply list_elem_of_lookup_2 in Hc.
        by apply list_elem_of_filter in Hc as [_ ?]. }
      by apply (proj1 (Forall_forall _ _) Hsn c).
    + by apply (Forall_lookup_1 _ _ _ _ Hsn18 Hd).
    + by apply (Forall_lookup_1 _ _ _ _ Hres Hd).
  - rewrite lookup_take_ge by lia.
    rewrite (lookup_ge_None_2 (filter in_use cl))
      by (unfold count_used in Hp; lia).
    done.
Qed.

Lemma reserved_init : Forall (λ d, reserved1 d = 0) (tdevs topo_init).
Proof. unfold topo_init. cbn [tdevs]. by apply Forall_replicate. Qed.

Lemma X7_topology_payload_witness :
  let cl := client_10_20 :: tail Clients_init in
  (topo_wf topo_init ∧ Forall (λ d, reserved1 d = 0) (tdevs topo_init) ∧
   length cl = MAX_CLIENTS ∧ Forall (λ c, length (sn c) = 18%nat) cl) ∧
  (build_topology cl 1 0 0 topo_init).1.2 =
  bytes_of_msg (fill_header 1 0 0) ++ [20; 10; 0] ++ sn0001 ++ [0].
Proof.
  intros cl.
  assert (H4 : Forall (λ c, length (sn c) = 18%nat) cl).
  { apply Forall_cons. split; [done|].
    change (tail Clients_init)
      with (replicate 63 (mkClient 0 0 0 (replicate 18 0))).
    by apply Forall_replicate. }
  split; [by repeat split; try apply topo_wf_init; try apply reserved_init|].
  exact (X7_topology_payload cl 1 0 0 topo_init topo_wf_init reserved_init
           eq_refl H4).
Defined.

(** X8: a topology datagram never reaches past the allocation of line 550:
    it is 12 + 22 * (number of in-use records) bytes long, at least 12 and
    at most the 1420 bytes of the buffer. *)
Theorem X8_payload_within_buffer cl dc sec usec t :
  topo_wf t → length cl = MAX_CLIENTS →
  let b := build_topology cl dc sec usec t in
  length (bytes_of_topo b.1.1) = 1420%nat ∧
  length b.1.2 = (12 + 22 * count_used cl)%nat ∧
  (12 ≤ length b.1.2 ≤ 1420)%nat.
Proof.
  intros Hwf Hcl b.
  destruct (build_topology_payload cl dc sec usec t Hwf Hcl)
    as (t' & payload & Hb & _ & [Hlen' Hsn'] & Hp & Hk & _).
  subst b. rewrite Hb. cbn [fst snd].
  pose proof (count_used_le cl) as Hle. rewrite Hcl in Hle.
  unfold MAX_CLIENTS in *.
  assert (Hpl : length payload = (12 + 22 * count_used cl)%nat).
  { rewrite Hp, length_app, length_bytes_of_msg.
    rewrite length_device_areas by (by apply Forall_take). by rewrite Hk. }
  split; [|split; [done|lia]].
  unfold bytes_of_topo.
  rewrite length_app, length_bytes_of_msg, length_device_areas by done.
  rewrite Hlen'. done.
Qed.

Lemma X8_payload_within_buffer_witness :
  (topo_wf topo_init ∧ length Clients_init = MAX_CLIENTS) ∧
  length (build_topology Clients_init 0 0 0 topo_init).1.2 = 12%nat.
Proof.
  split; [split; [exact topo_wf_init|reflexivity]|].
  destruct (X8_payload_within_buffer Clients_init 0 0 0 topo_init
              topo_wf_init eq_refl) as (_ & H & _).
  exact H.
Defined.

(** ** Poll round: what is sent and how long it sleeps *)

Lemma slept_app l1 l2 : slept (l1 ++ l2) = slept l1 + slept l2.
Proof.
  unfold slept. induction l1 as [|e l1 IH]; simpl; [done|].
  destruct e; rewrite ?IH; lia.
Qed.

Lemma slept_msleep_1 n : slept (replicate n (Msleep 1)) = Z.of_nat n.
Proof.
  induction n as [|n IH]; [done|].
  change (slept (replicate (S n) (Msleep 1)))
    with (1 + slept (replicate n (Msleep 1))).
  rewrite IH. lia.
Qed.

Lemma upd_shared_log inst f st : plog (upd_shared inst f st) = plog st.
Proof.
  unfold upd_shared. simpl.
  by destruct (sync_flags inst st) as (_ & _ & _ & ->).
Qed.

(** The log of one device poll: one datagram, and [idle] milliseconds of
    sleep. *)
Lemma poll_device_log inst c st :
  ∃ st' idle why,
    poll_device inst c st = Some (st', (idle, why)) ∧
    0 ≤ idle ≤ MAX_RESPONSE_TIME ∧
    datagrams (plog st') = datagrams (plog st) ++ [poll_datagram c] ∧
    slept (plog st') = slept (plog st) + idle.
Proof.
  destruct (poll_device_spec inst c st)
    as (stw & idle & why & _ & Hd & Hr & _ & _ & Hl).
  eexists _, idle, why. split; [exact Hd|]. split; [done|].
  rewrite Hl. split.
  - rewrite !datagrams_app, datagrams_msleep. f_equal.
    match goal with |- context [if ?b then _ else _] => by destruct b end.
  - rewrite !slept_app, slept_msleep_1.
    match goal with |- context [if ?b then _ else _] =>
      destruct b end; unfold slept; simpl; lia.
Qed.

Lemma poll_clients_log inst cl : ∀ st,
  ∃ st' os,
    poll_clients inst cl st = Some (st', os) ∧
    length os = count_used cl ∧
    Forall (λ o, 0 ≤ o.1 ≤ MAX_RESPONSE_TIME) os ∧
    datagrams (plog st') =
      datagrams (plog st) ++ (poll_datagram <$> filter in_use cl) ∧
    slept (plog st') = slept (plog st) + total_idle os.
Proof.
  induction cl as [|c cl IH]; intros st; simpl.
  - exists st, []. unfold total_idle. simpl.
    rewrite app_nil_r, Z.add_0_r. done.
  - destruct (used_cases c) as [[-> Hc]|[-> Hc]]; simpl.
    + rewrite count_used_cons_free, filter_cons_False by done. apply IH.
    + rewrite count_used_cons_used, filter_cons_True by done.
      destruct (poll_device_log inst c st)
        as (st1 & idle & why & -> & Hr & Hd1 & Hs1).
      destruct (IH st1) as (st2 & os & -> & Hlen & Hall & Hd2 & Hs2).
      exists st2, ((idle, why) :: os).
      split; [done|]. split; [simpl; by rewrite Hlen|].
      split; [by apply Forall_cons|]. split.
      * rewrite Hd2, Hd1, fmap_cons, <- app_assoc. done.
      * rewrite Hs2, Hs1. unfold total_idle. simpl. lia.
Qed.

Lemma total_idle_bound os :
  Forall (λ o, 0 ≤ o.1 ≤ MAX_RESPONSE_TIME) os →
  0 ≤ total_idle os ≤ MAX_RESPONSE_TIME * Z.of_nat (length os).
Proof.
  unfold MAX_RESPONSE_TIME, total_idle.
  induction 1 as [|o os Ho _ IH]; simpl; lia.
Qed.

Lemma total_idle_const v os :
  Forall (λ o, o = v) os → total_idle os = v.1 * Z.of_nat (length os).
Proof.
  unfold total_idle. induction 1 as [|o os -> _ IH]; simpl; lia.
Qed.

Lemma poll_round_datagrams inst cl st :
  ∃ st' os,
    poll_round inst cl st = Some (st', os) ∧
    datagrams (plog st') =
      datagrams (plog st) ++ (poll_datagram <$> filter in_use cl).
Proof.
  unfold poll_round.
  destruct (poll_clients_log inst cl st)
    as (st1 & os & -> & _ & _ & Hd & _).
  eexists _, os. split; [done|]. by rewrite upd_shared_log.
Qed.

(** X9: a poll round sends exactly one datagram for each in-use record, in
    table order, every one to 169.254.255.255 port 30000 with the bytes
    169, 254, next_to_last, last; free slots are skipped. *)
Theorem X9_round_datagrams inst cl st :
  ∃ st' os,
    poll_round inst cl st = Some (st', os) ∧
    length os = count_used cl ∧
    datagrams (plog st') =
      datagrams (plog st) ++ (poll_datagram <$> filter in_use cl).
Proof.
  unfold poll_round.
  destruct (poll_clients_log inst cl st)
    as (st1 & os & -> & Hlen & _ & Hd & _).
  eexists _, os. split; [done|]. split; [done|].
  by rewrite upd_shared_log.
Qed.

(** X10: the sleeping done by a poll round is the sum of its waits: at most
    [MAX_RESPONSE_TIME] ms for each in-use record, and in the program as
    coded (handler not installed), for a round the process lives through
    (no signal in its schedule), exactly [IDLE_POLL] ms for each. *)
Theorem X10_round_sleep inst cl st :
  ∃ st' os,
    poll_round inst cl st = Some (st', os) ∧
    slept (plog st') = slept (plog st) + total_idle os ∧
    0 ≤ total_idle os ≤ MAX_RESPONSE_TIME * Z.of_nat (count_used cl) ∧
    (inst = handler_installed → handled_schedule inst st →
     total_idle os = IDLE_POLL * Z.of_nat (count_used cl)).
Proof.
  unfold poll_round.
  destruct (poll_clients_log inst cl st)
    as (st1 & os & Hc & Hlen & Hall & _ & Hs).
  rewrite Hc. eexists _, os. split; [done|].
  split; [by rewrite upd_shared_log|].
  split; [rewrite <- Hlen; by apply total_idle_bound|].
  intros -> _. unfold handler_installed in Hc.
  destruct (poll_clients_total false
              (λ o, o = (IDLE_POLL, ExitBudget 0)) (λ _ _, True))
    with (cl := cl) (st := st) as (st1' & os' & Hc' & HQ & _); [done..| |].
  - intros c st0.
    destruct (poll_device_uninstalled c st0) as (st' & Hd & _). eauto.
  - rewrite Hc in Hc'. injection Hc' as _ <-.
    rewrite (total_idle_const _ _ HQ), Hlen. done.
Qed.

Lemma X10_round_sleep_witness :
  let st := mkP world0 [[]; []; []; [Recv 32 0 (replicate 32 0)]] [] in
  let cl := [client_10_20; client_10_21] in
  handled_schedule handler_installed st ∧
  ∃ st' os,
    poll_round handler_installed cl st = Some (st', os) ∧
    total_idle os = 300.
Proof.
  intros st cl.
  assert (H : handled_schedule handler_installed st).
  { unfold handled_schedule.
    repeat (apply Forall_cons; split; [|]); try apply Forall_nil_2;
      simpl; auto. }
  split; [exact H|].
  destruct (X10_round_sleep handler_installed cl st)
    as (st' & os & Hr & _ & _ & Hidle).
  exists st', os. split; [exact Hr|]. exact (Hidle eq_refl H).
Defined.

(** ** The wait under particular environments *)

Lemma poll_wait_preserves_st inst (P : pstate → Prop) :
  (∀ st, P st → P (sync inst st)) →
  (∀ e st, P st → P (emit e st)) →
  ∀ fuel st idle st' idle' why,
    poll_wait inst fuel st idle = Some (st', idle', why) →
    P st → P st'.
Proof.
  intros Hsync Hemit.
  induction fuel as [|fuel IH]; intros st idle st' idle' why; simpl; [done|].
  intros Hw HPst.
  assert (H1 : P (sync inst st)) by auto.
  assert (H3 : P (sync inst (emit (Msleep 1) (sync inst st)))) by auto.
  repeat case_match; simplify_eq; eauto.
Qed.

Lemma env_step_no_resp inst w e :
  no_resp_event e → Resp (wsh (env_step inst w e)) = Resp (wsh w).
Proof.
  destruct e as [n pkttype buffer|signo si_int]; simpl.
  - intros _. by destruct (filter_iteration_flags n pkttype buffer w).
  - intros Hno. destruct inst; [|done]. simpl. unfold sig_event_handler.
    destruct (Z.eqb_spec signo 44) as [->|]; [|done].
    destruct (Nga (wsh w) =? 1); [|done]. simpl.
    destruct (Z.eqb_spec si_int 0) as [->|]; [|done].
    by destruct Hno.
Qed.

Lemma env_run_no_resp inst evs : ∀ w,
  Forall no_resp_event evs →
  Resp (wsh (env_run inst evs w)) = Resp (wsh w).
Proof.
  unfold env_run.
  induction evs as [|e evs IH]; intros w Hall; simpl; [done|].
  apply Forall_cons in Hall as [He Hall].
  by rewrite IH, env_step_no_resp.
Qed.

Lemma sync_resp_quiet inst st : resp_quiet st → resp_quiet (sync inst st).
Proof.
  intros [Hs Hr]. unfold sync, resp_quiet.
  destruct (psched st) as [|evs rest] eqn:Hp; simpl.
  - rewrite Hp. by split.
  - apply Forall_cons in Hs as [He Hs].
    split; [done|]. by rewrite env_run_no_resp.
Qed.

Lemma upd_shared_resp_sched inst f st :
  Forall (Forall no_resp_event) (psched st) →
  Forall (Forall no_resp_event) (psched (upd_shared inst f st)).
Proof.
  intros Hs. unfold upd_shared, sync. simpl.
  destruct (psched st) as [|evs rest] eqn:Hp; simpl.
  - by rewrite Hp.
  - by apply Forall_cons in Hs as [_ Hs].
Qed.

Lemma armed_resp_quiet inst c st :
  Forall (Forall no_resp_event) (psched st) → resp_quiet (armed inst c st).
Proof.
  intros Hs. unfold armed.
  set (st1 := upd_shared inst (set_Resp 0) st).
  assert (H1 : resp_quiet st1).
  { split; [by apply upd_shared_resp_sched|done]. }
  set (st2 := upd_shared inst (set_End 0) st1).
  assert (H2 : resp_quiet st2).
  { destruct (sync_resp_quiet inst st1 H1) as [Hs2 Hr2].
    split; [by apply upd_shared_resp_sched; apply H1|exact Hr2]. }
  destruct (sync_resp_quiet inst st2 H2) as [Hs3 Hr3].
  split; [|exact Hr3].
  simpl. apply (upd_shared_resp_sched inst (set_Nga 1) st2), H2.
Qed.

Lemma env_step_no_end inst w e :
  no_end_event e → End_ (wsh w) = 0 → End_ (wsh (env_step inst w e)) = 0.
Proof.
  destruct e as [n pkttype buffer|signo si_int]; simpl.
  - intros Hno HE. unfold filter_iteration.
    destruct (Z.ltb_spec 0 n) as [Hn|Hn]; [|done].
    destruct Hno as [Hno| ->]; [lia|]. rewrite Z.eqb_refl.
    destruct (announce_check_flags n buffer (wsh w)) as (_ & HE' & _).
    destruct (announce_check n buffer (wsh w)) as [s2 l2]. simpl in *.
    by rewrite HE'.
  - intros -> HE. destruct inst; [|done]. simpl. unfold sig_event_handler.
    destruct ((signo =? 44) && (Nga (wsh w) =? 1)); done.
Qed.

Lemma env_run_no_end inst evs : ∀ w,
  Forall no_end_event evs → End_ (wsh w) = 0 →
  End_ (wsh (env_run inst evs w)) = 0.
Proof.
  unfold env_run.
  induction evs as [|e evs IH]; intros w Hall HE; simpl; [done|].
  apply Forall_cons in Hall as [He Hall].
  apply IH; [done|]. by apply env_step_no_end.
Qed.

Lemma sync_end_clear inst st : end_clear st → end_clear (sync inst st).
Proof.
  intros (Hs & HE). unfold end_clear, sync.
  destruct (psched st) as [|evs rest] eqn:Hp; simpl.
  - rewrite Hp. by split.
  - apply Forall_cons in Hs as [He Hs]. split; [done|].
    by apply env_run_no_end.
Qed.

Lemma upd_shared_end_sched inst f st :
  Forall (Forall no_end_event) (psched st) →
  Forall (Forall no_end_event) (psched (upd_shared inst f st)).
Proof.
  intros Hs. unfold upd_shared, sync. simpl.
  destruct (psched st) as [|evs rest] eqn:Hp; simpl.
  - by rewrite Hp.
  - by apply Forall_cons in Hs as [_ Hs].
Qed.

Lemma armed_end_clear inst c st :
  Forall (Forall no_end_event) (psched st) → end_clear (armed inst c st).
Proof.
  intros Hs. unfold armed.
  set (st1 := upd_shared inst (set_Resp 0) st).
  assert (H1 : Forall (Forall no_end_event) (psched st1))
    by (by apply upd_shared_end_sched).
  set (st2 := upd_shared inst (set_End 0) st1).
  assert (H2 : end_clear st2).
  { split; [by apply upd_shared_end_sched|done]. }
  destruct (sync_end_clear inst st2 H2) as [Hs3 HE3].
  split; [|exact HE3].
  simpl. apply (upd_shared_end_sched inst (set_Nga 1) st2), H2.
Qed.

(** X11: no flag leaks into a device poll the process lives through,
    whatever [*Resp], [*End] and [*Nga] hold before it.  A stale [*Resp]
    does not lengthen it and [*End] alone never cuts it short: when no
    frame-start signal is handled during the poll, it waits [IDLE_POLL]
    iterations and leaves the loop through its condition.  A stale [*End]
    does not cut it short either: when nothing sets [*End] during the poll,
    it never leaves through the break, but through the condition at
    [IDLE_POLL] with [*Resp] read 0 or at [MAX_RESPONSE_TIME] with [*Resp]
    read nonzero, and [*End] is still 0 afterwards. *)
Theorem X11_no_flag_leak inst c st :
  handled_schedule inst st →
  (Forall (Forall no_resp_event) (psched st) →
   ∃ st', poll_device inst c st = Some (st', (IDLE_POLL, ExitBudget 0))) ∧
  (Forall (Forall no_end_event) (psched st) →
   ∃ st' idle r,
     poll_device inst c st = Some (st', (idle, ExitBudget r)) ∧
     End_ (wsh (pw st')) = 0 ∧
     (r = 0 ∧ idle = IDLE_POLL ∨ r ≠ 0 ∧ idle = MAX_RESPONSE_TIME)).
Proof.
  intros _.
  destruct (poll_device_spec inst c st)
    as (stw & idle & why & Hw & Hd & _ & H0 & _).
  split.
  - intros Hs.
    assert (Hq : resp_quiet stw).
    { eapply (poll_wait_preserves_st inst resp_quiet);
        [apply sync_resp_quiet|by intros e st0 [? ?]|exact Hw|].
      by apply armed_resp_quiet. }
    destruct (H0 (proj2 Hq)) as [-> ->]. eauto.
  - intros Hs.
    assert (Hq : end_clear stw).
    { eapply (poll_wait_preserves_st inst end_clear);
        [apply sync_end_clear|by intros e st0 [? ?]|exact Hw|].
      by apply armed_end_clear. }
    destruct (poll_wait_total inst (armed inst c st))
      as (stw' & idle' & why' & Hw' & _ & _ & _ & Hy).
    rewrite Hw in Hw'. injection Hw' as <- <- <-.
    destruct why as [r|].
    + destruct Hy as (Hr & Hz & Hn).
      eexists _, idle, r. split; [exact Hd|]. split.
      * destruct (sync_end_clear inst stw Hq) as [_ HE].
        by destruct (_ =? 1).
      * destruct (Z.eq_dec r 0) as [Hr0|Hr0]; [left|right]; auto.
    + destruct Hy as [HE _]. by destruct Hq as [_ HE0].
Qed.

Lemma X11_no_flag_leak_witness :
  let st1 := mkP (mkWorld (mkShared 1 1 1 (replicate 21 0)) 0)
                 [[]; []; []; [Recv 32 0 (replicate 32 0); Signal 44 1]] [] in
  let st2 := mkP (mkWorld (mkShared 0 1 0 (replicate 21 0)) 0)
                 [[]; []; []; [Signal 44 0]] [] in
  (handled_schedule true st1 ∧
   Forall (Forall no_resp_event) (psched st1) ∧
   handled_schedule true st2 ∧
   Forall (Forall no_end_event) (psched st2)) ∧
  (∃ st', poll_device true client_10_20 st1 =
          Some (st', (IDLE_POLL, ExitBudget 0))) ∧
  (∃ st' idle r, poll_device true client_10_20 st2 =
                 Some (st', (idle, ExitBudget r)) ∧
                 End_ (wsh (pw st')) = 0 ∧
                 (r = 0 ∧ idle = IDLE_POLL ∨
                  r ≠ 0 ∧ idle = MAX_RESPONSE_TIME)).
Proof.
  intros st1 st2.
  assert (H1 : handled_schedule true st1).
  { unfold handled_schedule.
    repeat (apply Forall_cons; split; [|]); try apply Forall_nil_2;
      simpl; auto. }
  assert (H2 : Forall (Forall no_resp_event) (psched st1)).
  { repeat (apply Forall_cons; split; [|]); try apply Forall_nil_2;
      simpl; auto. }
  assert (H3 : handled_schedule true st2).
  { unfold handled_schedule.
    repeat (apply Forall_cons; split; [|]); try apply Forall_nil_2;
      simpl; auto. }
  assert (H4 : Forall (Forall no_end_event) (psched st2)).
  { repeat (apply Forall_cons; split; [|]); try apply Forall_nil_2;
      simpl; auto. }
  split; [by repeat split|]. split.
  - exact (proj1 (X11_no_flag_leak true client_10_20 st1 H1) H2).
  - exact (proj2 (X11_no_flag_leak true client_10_20 st2 H3) H4).
Defined.

Lemma sync_end_quiet inst st : end_quiet st → end_quiet (sync inst st).
Proof.
  intros (Hs & HE & HR). unfold end_quiet.
  destruct (sync_flags inst st) as (HR' & _). split; [|split; [|auto]].
  - unfold sync. destruct (psched st) as [|evs rest] eqn:Hp; simpl.
    + by rewrite Hp.
    + by apply Forall_cons in Hs as [_ Hs].
  - unfold sync. destruct (psched st) as [|evs rest] eqn:Hp; simpl; [done|].
    apply Forall_cons in Hs as [He _]. by apply env_run_no_end.
Qed.

(** X12: the response ceiling: a wait that starts with [*Resp] set and
    [*End] clear, and during which nothing sets [*End] (only receive
    time-outs, outgoing frames and frame-start signals occur), lasts
    [MAX_RESPONSE_TIME] iterations and leaves the loop through its
    condition. *)
Theorem X12_response_ceiling inst st :
  Resp (wsh (pw st)) ≠ 0 →
  End_ (wsh (pw st)) = 0 →
  Forall (Forall no_end_event) (psched st) →
  ∃ st' r,
    poll_wait inst wait_fuel st 0 =
      Some (st', MAX_RESPONSE_TIME, ExitBudget r) ∧ r ≠ 0.
Proof.
  intros HR HE Hs.
  destruct (poll_wait_total inst st)
    as (st' & idle & why & Hw & _ & _ & _ & Hy).
  assert (Hq : end_quiet st').
  { eapply (poll_wait_preserves_st inst end_quiet);
      [apply sync_end_quiet|by intros e st0 (? & ? & ?)|exact Hw|done]. }
  destruct Hq as (_ & HE' & HR').
  destruct why as [r|].
  - destruct Hy as (-> & _ & H600). rewrite (H600 HR') in Hw. eauto.
  - by destruct Hy as [? _].
Qed.

Lemma X12_response_ceiling_witness :
  let st := mkP (mkWorld (mkShared 1 0 1 (replicate 21 0)) 0)
                [[Signal 44 0]; [Recv (-1) 0 []]] [] in
  (Resp (wsh (pw st)) ≠ 0 ∧ End_ (wsh (pw st)) = 0 ∧
   Forall (Forall no_end_event) (psched st)) ∧
  ∃ st' r, poll_wait true wait_fuel st 0 =
           Some (st', MAX_RESPONSE_TIME, ExitBudget r) ∧ r ≠ 0.
Proof.
  intros st.
  assert (H1 : Resp (wsh (pw st)) ≠ 0) by discriminate.
  assert (H3 : Forall (Forall no_end_event) (psched st)).
  { repeat (apply Forall_cons; split; [|]); try apply Forall_nil_2;
      simpl; auto. left. lia. }
  split; [split; [exact H1|split; [reflexivity|exact H3]]|].
  exact (X12_response_ceiling true st H1 eq_refl H3).
Defined.

(** ** Topology cadence (lines 596-600) *)

(** X13: with [unsigned long] at least 3 bits wide, the topology phase does
    nothing while the clock reads 0 to [TOPOLOGY_SECS] seconds more than at
    the last broadcast; it broadcasts, sleeps 500 ms and records the clock
    when the clock reads more than that, and also when the clock reads
    less than at the last broadcast (the unsigned difference wraps). *)
Theorem X13_topology_cadence ub k l st :
  3 ≤ ub →
  let fired :=
    ∃ t' payload,
      topology_phase ub k l st =
        (mkLocals (Clients l) (DeviceCount l) (now k) t',
         mkP (pw st) (psched st)
             (plog st ++ [Sendto s payload; Tcdrain; Tcflush; Msleep 500])) in
  (0 ≤ now k - last_topology l ≤ TOPOLOGY_SECS →
   topology_phase ub k l st = (l, st)) ∧
  (TOPOLOGY_SECS < now k - last_topology l < 2 ^ ub → fired) ∧
  (TOPOLOGY_SECS - 2 ^ ub < now k - last_topology l < 0 → fired).
Proof.
  intros Hub fired. unfold TOPOLOGY_SECS in *.
  assert (H8 : 8 ≤ 2 ^ ub).
  { change 8 with (2 ^ 3). apply Z.pow_le_mono_r; lia. }
  assert (Hfire : 4 < (now k - last_topology l) mod 2 ^ ub → fired).
  { intros Hlt. subst fired. unfold topology_phase, TOPOLOGY_SECS.
    destruct (Z.ltb_spec 4 ((now k - last_topology l) mod 2 ^ ub)); [|lia].
    destruct (build_topology _ _ _ _ _) as [[t' payload] u].
    exists t', payload. unfold emit. simpl. by rewrite <- !app_assoc. }
  split; [|split].
  - intros Hd. unfold topology_phase, TOPOLOGY_SECS.
    rewrite Z.mod_small by lia.
    destruct (Z.ltb_spec 4 (now k - last_topology l)); [lia|done].
  - intros Hd. apply Hfire. rewrite Z.mod_small by lia. lia.
  - intros Hd. apply Hfire.
    replace (now k - last_topology l)
      with ((now k - last_topology l + 2 ^ ub) + (-1) * 2 ^ ub) by lia.
    rewrite Z.mod_add by lia. rewrite Z.mod_small by lia. lia.
Qed.

Lemma X13_topology_cadence_witness :
  3 ≤ 64 ∧
  topology_phase 64 (mkClock 104 104 0)
    (mkLocals Clients_init 0 100 topo_init) quiet =
  (mkLocals Clients_init 0 100 topo_init, quiet).
Proof.
  split; [lia|].
  destruct (X13_topology_cadence 64 (mkClock 104 104 0)
              (mkLocals Clients_init 0 100 topo_init) quiet ltac:(lia))
    as [H _].
  apply H. simpl. unfold TOPOLOGY_SECS. lia.
Defined.

(** ** The first iteration of the wait *)

Lemma poll_wait_first inst fuel st :
  poll_wait inst (S fuel) st 0 =
  let st3 := sync inst (emit (Msleep 1) (sync inst st)) in
  if negb (End_ (wsh (pw st3)) =? 0) then
    let st4 := sync inst st3 in
    if negb (Resp (wsh (pw st4)) =? 0) then Some (st4, 1, ExitBreak)
    else poll_wait inst fuel st4 1
  else poll_wait inst fuel st3 1.
Proof. simpl. by destruct (Resp (wsh (pw (sync inst st))) =? 0). Qed.

(** X19: the wait of a device poll always sleeps at least once: the flags
    are first tested after the first [msleep(1)]; when [*Resp] and [*End]
    are both set as it starts, it ends by the break after exactly one
    iteration. *)
Theorem X19_wait_at_least_once inst st :
  ∃ st' idle why,
    poll_wait inst wait_fuel st 0 = Some (st', idle, why) ∧
    1 ≤ idle ∧
    (Resp (wsh (pw st)) ≠ 0 → End_ (wsh (pw st)) ≠ 0 →
     idle = 1 ∧ why = ExitBreak).
Proof.
  change wait_fuel with (S 600). rewrite poll_wait_first. cbv zeta.
  destruct (sync_flags inst st) as (HR1 & HE1 & _).
  set (st1 := sync inst st) in *.
  destruct (sync_flags inst (emit (Msleep 1) st1)) as (HR3 & HE3 & _).
  set (st3 := sync inst (emit (Msleep 1) st1)) in *.
  destruct (sync_flags inst st3) as (HR4 & HE4 & _).
  set (st4 := sync inst st3) in *.
  assert (Hrec : ∀ stn,
    ∃ st' idle why, poll_wait inst 600 stn 1 = Some (st', idle, why)
                    ∧ 1 ≤ idle).
  { intros stn.
    destruct (poll_wait_spec inst 600 stn 1)
      as (st' & idle & why & Hw & Hr & _);
      unfold MAX_RESPONSE_TIME, IDLE_POLL; try lia.
    exists st', idle, why. split; [done|lia]. }
  destruct (Z.eqb_spec (End_ (wsh (pw st3))) 0) as [He|He]; cbn [negb].
  - destruct (Hrec st3) as (st' & idle & why & -> & Hi).
    exists st', idle, why. split; [done|]. split; [done|].
    intros HR HE. destruct (HE3 (HE1 HE)). exact He.
  - destruct (Z.eqb_spec (Resp (wsh (pw st4))) 0) as [Hr|Hr]; cbn [negb].
    + destruct (Hrec st4) as (st' & idle & why & -> & Hi).
      exists st', idle, why. split; [done|]. split; [done|].
      intros HR HE. destruct (HR4 (HR3 (HR1 HR))). exact Hr.
    + exists st4, 1, ExitBreak. split; [done|]. split; [lia|done].
Qed.

(** ** One iteration of the main loop *)

(** X18: an iteration of the main loop drains the mailbox first, then
    broadcasts at most one topology message, then polls: its datagrams are
    the optional topology datagram followed by one poll datagram for each
    in-use record of the table as the drain of this very iteration left
    it, so a client is polled in the iteration that discovers it. *)
Theorem X18_iteration_order inst ub k l st :
  ∃ l' st' topo_dg,
    poll_iteration inst ub k l st = Some (l', st') ∧
    (Clients l', DeviceCount l') =
      (discovery_drain (NewClient (wsh (pw (sync inst st))))
                       (Clients l) (DeviceCount l)).1 ∧
    (topo_dg = [] ∨ ∃ payload, topo_dg = [(s, payload)]) ∧
    datagrams (plog st') =
      datagrams (plog st) ++ topo_dg
        ++ (poll_datagram <$> filter in_use (Clients l')).
Proof.
  unfold poll_iteration, drain_phase.
  destruct (sync_flags inst st) as (_ & _ & _ & HL1).
  destruct (discovery_drain _ (Clients l) (DeviceCount l))
    as [[cl1 dc1] nc1].
  unfold topology_phase. cbn [Clients DeviceCount last_topology topo].
  destruct (_ <? _).
  - destruct (build_topology cl1 dc1 _ _ _) as [[t' payload] u].
    cbn [Clients].
    match goal with |- context [poll_round inst cl1 ?x] => set (st2 := x) end.
    destruct (poll_round_datagrams inst cl1 st2) as (st3 & os & -> & Hd).
    exists (mkLocals cl1 dc1 (now k) t'), st3, [(s, payload)].
    split; [done|]. split; [done|]. split; [eauto|].
    rewrite Hd. subst st2. unfold emit. simpl.
    rewrite !datagrams_app, HL1. simpl. by rewrite <- !app_assoc.
  - cbn [Clients].
    match goal with |- context [poll_round inst cl1 ?x] => set (st2 := x) end.
    destruct (poll_round_datagrams inst cl1 st2) as (st3 & os & -> & Hd).
    exists (mkLocals cl1 dc1 (last_topology l) (topo l)), st3, [].
    split; [done|]. split; [done|]. split; [by left|].
    rewrite Hd. subst st2. simpl. by rewrite HL1.
Qed.

(** ** The shared cells under the capture process and the notifier *)

Lemma announce_check_pending n buffer sh :
  byte_at (NewClient sh) 0 ≠ 0 →
  NewClient (announce_check n buffer sh).1 = NewClient sh.
Proof.
  intros Hp. unfold announce_check.
  destruct (n =? 60); [|done].
  destruct (byte_at buffer 28 =? 85); [|done].
  destruct (Z.eqb_spec (byte_at (NewClient sh) 0) 0); done.
Qed.

Lemma env_step_pending inst w e :
  byte_at (NewClient (wsh w)) 0 ≠ 0 →
  NewClient (wsh (env_step inst w e)) = NewClient (wsh w).
Proof.
  intros Hp. destruct e as [n pkttype buffer|signo si_int]; simpl.
  - unfold filter_iteration. destruct (0 <? n); [|done].
    destruct (pkttype =? PACKET_OUTGOING).
    + pose proof (announce_check_pending n buffer (wsh w) Hp) as H.
      by destruct (announce_check n buffer (wsh w)).
    + pose proof (announce_check_pending n buffer (set_End 1 (wsh w)) Hp)
        as H.
      by destruct (announce_check n buffer (set_End 1 (wsh w))).
  - destruct inst; [|done]. simpl.
    by destruct (sig_event_handler_flags signo si_int (wsh w))
      as (_ & _ & _ & ->).
Qed.

(** X14: the mailbox is a single slot: while its pending flag is set, no
    frame seen by the capture process and no signal changes any of its 21
    bytes, so a second announce arriving before the drain is lost. *)
Theorem X14_mailbox_kept_while_pending inst evs w :
  byte_at (NewClient (wsh w)) 0 ≠ 0 →
  NewClient (wsh (env_run inst evs w)) = NewClient (wsh w).
Proof.
  unfold env_run. revert w.
  induction evs as [|e evs IH]; intros w Hp; simpl; [done|].
  rewrite IH; rewrite env_step_pending; done.
Qed.

Lemma X14_mailbox_kept_while_pending_witness :
  let w1 := (filter_iteration 60 0 (announce_frame 10 20 sn0001) world0).1 in
  byte_at (NewClient (wsh w1)) 0 ≠ 0 ∧
  NewClient (wsh (env_run true
                    [Recv 60 0 (announce_frame 10 21 sn0001); Signal 44 0]
                    w1)) = [1; 10; 20] ++ sn0001.
Proof.
  intros w1.
  assert (H : byte_at (NewClient (wsh w1)) 0 ≠ 0) by discriminate.
  split; [exact H|].
  exact (X14_mailbox_kept_while_pending true
           [Recv 60 0 (announce_frame 10 21 sn0001); Signal 44 0] w1 H).
Defined.

Lemma env_step_unarmed inst w e :
  Nga (wsh w) ≠ 1 →
  Resp (wsh (env_step inst w e)) = Resp (wsh w) ∧
  (∀ signo si_int, e = Signal signo si_int → env_step inst w e = w).
Proof.
  intros Hn. destruct e as [n pkttype buffer|signo si_int]; simpl.
  - split; [|done]. by destruct (filter_iteration_flags n pkttype buffer w).
  - assert (sig_event_handler signo si_int (wsh w) = wsh w) as Hs.
    { unfold sig_event_handler.
      destruct (Z.eqb_spec (Nga (wsh w)) 1); [done|].
      by rewrite andb_false_r. }
    destruct inst; [|done]. rewrite Hs. by destruct w.
Qed.

(** X15: the notifier acts only while a poll is armed: as long as [*Nga]
    is not 1, no frame and no signal changes [*Resp], and a signal changes
    nothing at all. *)
Theorem X15_unarmed_signals_ignored inst evs w :
  Nga (wsh w) ≠ 1 →
  Resp (wsh (env_run inst evs w)) = Resp (wsh w) ∧
  ((∀ e, e ∈ evs → ∃ signo si_int, e = Signal signo si_int) →
   env_run inst evs w = w).
Proof.
  unfold env_run. revert w.
  induction evs as [|e evs IH]; intros w Hn; simpl; [done|].
  destruct (env_step_unarmed inst w e Hn) as [HR Hsig].
  assert (Hn' : Nga (wsh (env_step inst w e)) ≠ 1).
  { destruct (env_step_flags inst w e) as (_ & _ & ->). done. }
  destruct (IH _ Hn') as [HR' Hsig']. split; [by rewrite HR', HR|].
  intros Hall.
  destruct (Hall e) as (signo & si_int & ->); [by left|].
  rewrite (Hsig signo si_int eq_refl) in Hsig' |- *.
  apply Hsig'. intros e' He'. apply Hall. by right.
Qed.

Lemma X15_unarmed_signals_ignored_witness :
  Nga (wsh world0) ≠ 1 ∧
  env_run true [Signal 44 0; Signal 44 1] world0 = world0.
Proof.
  assert (H : Nga (wsh world0) ≠ 1) by discriminate.
  split; [exact H|].
  destruct (X15_unarmed_signals_ignored true [Signal 44 0; Signal 44 1]
              world0 H) as [_ Hs].
  apply Hs. intros e He.
  apply elem_of_cons in He as [->|He]; [eauto|].
  apply elem_of_cons in He as [->|He]; [eauto|].
  by apply elem_of_nil in He.
Defined.

Lemma byte_at_insert_0 v (m : list Z) :
  (0 < length m)%nat → byte_at (<[0%nat := v]> m) 0 = v.
Proof.
  intros Hm. unfold byte_at. by rewrite list_lookup_insert_eq.
Qed.

Lemma announce_check_wf n buffer sh :
  shared_wf sh → shared_wf (announce_check n buffer sh).1.
Proof.
  intros (HR & HE & HN & Hlen & Hp). unfold announce_check.
  destruct (n =? 60); [|done].
  destruct (byte_at buffer 28 =? 85); [|done].
  destruct (byte_at (NewClient sh) 0 =? 0); [|done].
  unfold shared_wf, set_NewClient. cbn [fst Resp End_ Nga NewClient].
  split; [done|]. split; [done|]. split; [done|]. split.
  - by rewrite length_memcpy, !length_insert.
  - right. unfold byte_at. rewrite memcpy_lookup.
    rewrite decide_False by lia.
    rewrite list_lookup_insert_eq; [done|].
    rewrite !length_insert. lia.
Qed.

Lemma set_End_1_wf sh : shared_wf sh → shared_wf (set_End 1 sh).
Proof. intros (HR & HE & HN & Hlen & Hp). unfold shared_wf. simpl. auto. Qed.

Lemma sys_step_wf inst w w' :
  sys_step inst w w' → shared_wf (wsh w) → shared_wf (wsh w').
Proof.
  intros [w0 e|w0 sh' Hw] Hwf.
  - destruct e as [n pkttype buffer|signo si_int]; simpl.
    + unfold filter_iteration. destruct (0 <? n); [|done].
      destruct (pkttype =? PACKET_OUTGOING).
      * pose proof (announce_check_wf n buffer _ Hwf) as H.
        by destruct (announce_check n buffer (wsh w0)).
      * pose proof (announce_check_wf n buffer _ (set_End_1_wf _ Hwf)) as H.
        by destruct (announce_check n buffer (set_End 1 (wsh w0))).
    + destruct inst; [|done]. simpl. unfold sig_event_handler.
      destruct ((signo =? 44) && (Nga (wsh w0) =? 1)); [|done].
      destruct Hwf as (HR & HE & HN & Hlen & Hp).
      destruct (si_int =? 0); unfold shared_wf; simpl; auto 10.
  - simpl. destruct Hwf as (HR & HE & HN & Hlen & Hp).
    destruct Hw; unfold shared_wf; simpl; auto 10.
    split; [done|]. split; [done|]. split; [done|]. split.
    + by rewrite length_insert.
    + left. apply byte_at_insert_0. lia.
Qed.

(** X16: in every reachable state of the two processes, with or without
    the handler, the three flags hold 0 or 1, the mailbox is 21 bytes long
    and its pending flag is 0 or 1. *)
Theorem X16_shared_cells_ranges inst w :
  reachable inst w → shared_wf (wsh w).
Proof.
  induction 1 as [|w w' _ IH Hstep].
  - unfold shared_wf. simpl. auto 10.
  - by eapply sys_step_wf.
Qed.

Lemma X16_shared_cells_ranges_witness :
  reachable true
    (env_step true (mkWorld (set_Nga 1 main_shared) 0) (Signal 44 0)) ∧
  shared_wf
    (wsh (env_step true (mkWorld (set_Nga 1 main_shared) 0) (Signal 44 0))).
Proof.
  assert (H : reachable true
    (env_step true (mkWorld (set_Nga 1 main_shared) 0) (Signal 44 0))).
  { eapply Reach_step; [|apply Step_env].
    eapply Reach_step; [apply Reach_init|].
    apply (Step_poll true (mkWorld main_shared 0)). constructor. }
  split; [exact H|]. exact (X16_shared_cells_ranges true _ H).
Defined.

(** ** msleep *)

Lemma nanosleep_loop_spec final rest : ∀ rems ts errno calls,
  nanosleep_loop ((NsFail EINTR <$> rems) ++ final :: rest) ts errno calls =
  match final with
  | NsOk =>
      Some (0, if rems is [] then errno else EINTR, calls ++ ts :: rems)
  | NsFail e rem =>
      if e =? EINTR
      then nanosleep_loop rest rem e (calls ++ ts :: rems)
      else Some (-1, e, calls ++ ts :: rems)
  end.
Proof.
  induction rems as [|r rems IH]; intros ts errno calls; simpl.
  - destruct final as [|e rem]; [done|]. by destruct (e =? EINTR).
  - rewrite IH, <- app_assoc. simpl.
    destruct final as [|e rem]; [|done]. by destruct rems.
Qed.

(** X17: [msleep] refuses a negative duration with -1 and [EINVAL] without
    sleeping; otherwise it first asks [nanosleep] for exactly [msec]
    milliseconds as a normalised [timespec], asks again for the remaining
    time after every interruption ([EINTR]), and returns what the first
    uninterrupted call returns: 0, or -1 with that call's [errno]. *)
Theorem X17_msleep msec errno rems final rest :
  let results := (NsFail EINTR <$> rems) ++ final :: rest in
  let first := mkTimespec (msec / 1000) (msec mod 1000 * 1000000) in
  (msec < 0 → msleep msec errno results = Some (-1, EINVAL, [])) ∧
  (0 ≤ msec →
   ts_sec first * 1000000000 + ts_nsec first = msec * 1000000 ∧
   0 ≤ ts_nsec first < 1000000000 ∧
   match final with
   | NsOk =>
       msleep msec errno results =
       Some (0, if rems is [] then errno else EINTR, first :: rems)
   | NsFail e rem =>
       e ≠ EINTR → msleep msec errno results = Some (-1, e, first :: rems)
   end).
Proof.
  intros results first. unfold msleep. split.
  - intros Hneg. by destruct (Z.ltb_spec msec 0); [|lia].
  - intros Hpos. destruct (Z.ltb_spec msec 0); [lia|].
    rewrite Z.quot_div_nonneg, Z.rem_mod_nonneg by lia. fold first.
    subst results. rewrite nanosleep_loop_spec. simpl.
    pose proof (Z.div_mod msec 1000 ltac:(lia)).
    pose proof (Z.mod_pos_bound msec 1000 ltac:(lia)).
    split; [lia|]. split; [lia|].
    destruct final as [|e rem]; [done|].
    intros He. by destruct (Z.eqb_spec e EINTR).
Qed.

(** ** The scenarios of the specification, run on the model *)

(** Scenario A: one announce from 169.254.10.20 into the empty table. *)
Example scenario_A :
  let m := NewClient (wsh (filter_iteration 60 0
                             (announce_frame 10 20 sn0001) world0).1) in
  let r := drain_all [m] Clients_init 0 in
  filter in_use r.1 = [client_10_20] ∧ r.2 = 1.
Proof. vm_compute. done. Qed.

(** Scenario B: a second announce while the mailbox is pending is lost. *)
Example scenario_B :
  let w1 := (filter_iteration 60 0 (announce_frame 10 20 sn0001) world0).1 in
  let w2 := (filter_iteration 60 0 (announce_frame 10 21 sn0001) w1).1 in
  NewClient (wsh w2) = NewClient (wsh w1) ∧
  filter in_use (drain_all [NewClient (wsh w2)] Clients_init 0).1 =
    [client_10_20].
Proof. vm_compute. done. Qed.

(** Scenario E: a full table takes no new client and the mailbox is
    cleared. *)
Example scenario_E :
  let full := replicate MAX_CLIENTS client_10_20 in
  let m := [1; 10; 21] ++ sn0001 in
  discovery_drain m full 64 = (full, 64, [0; 10; 21] ++ sn0001).
Proof. vm_compute. done. Qed.

(** Scenario D: no flag is ever set, the wait ends at the idle ceiling. *)
Example scenario_D :
  ∃ st', poll_wait true wait_fuel (armed true client_10_20 quiet) 0 =
         Some (st', 150, ExitBudget 0).
Proof. eexists. vm_compute. reflexivity. Qed.

(** Scenario C: with the handler installed, a frame start and no frame end:
    the wait ends at the response ceiling. *)
Example scenario_C :
  let st := mkP world0 [[]; []; []; [Signal 44 0]] [] in
  ∃ st', poll_wait true wait_fuel (armed true client_10_20 st) 0 =
         Some (st', 600, ExitBudget 1).
Proof. eexists. vm_compute. reflexivity. Qed.

(** With the handler installed, frame start then frame end leave the wait
    through the break. *)
Example early_exit_installed :
  let st := mkP world0 [[]; []; []; [Signal 44 0]; [Signal 44 1]] [] in
  ∃ st', poll_wait true wait_fuel (armed true client_10_20 st) 0 =
         Some (st', 1, ExitBreak).
Proof. eexists. vm_compute. reflexivity. Qed.

(** An inbound frame alone sets [*End] and does not end the wait early. *)
Example frame_end_alone :
  let st := mkP world0 [[]; []; []; [Recv 32 0 (replicate 32 0)]] [] in
  ∃ st', poll_wait true wait_fuel (armed true client_10_20 st) 0 =
         Some (st', 150, ExitBudget 0) ∧ End_ (wsh (pw st')) = 1.
Proof. eexists. split; vm_compute; reflexivity. Qed.
